(** * RemootioDevice: a shallow embedding of lib/index.js

    The websocket API client for a single Remootio device, as the class
    [RemootioDevice] of lib/index.js has it: the private fields become a
    record, every method and every callback registered in [connect] becomes
    a computation in a small state-and-exception monad over a [World]
    (the instance's fields, the live timers of the event loop and the trace
    of observable effects).

    Conventions of the embedding:
    - JavaScript numbers that hold ids, ports and durations are integers [Z];
      [sendPingMessageEveryXMs / 2] is a rational [Q];
    - [undefined] is [None];
    - [emit] records the event in the trace; what the listeners of the
      embedding application do is outside the model, but whether ['error']
      has a listener is part of it: [EventEmitter] throws on an ['error']
      that nobody listens to;
    - [websocketClient.send (JSON.stringify x)] records [Send x];
    - [readyState] belongs to the websocket library, which changes it
      between two callbacks. *)

From Stdlib Require Import ZArith NArith QArith List String Ascii Bool Lia.
From Stdlib Require Import DecimalString.
Import ListNotations.
Local Open Scope string_scope.
Local Open Scope Z_scope.

Set Implicit Arguments.

(** ** Values exchanged with the device *)

(** [n.toString()] of a number: its decimal text. *)
Definition number_toString (n : Z) : string :=
  NilZero.string_of_int (Z.to_int n).

(** A parsed JSON value, as [JSON.parse] returns it; the keys of an object
    are distinct. Numbers are integers, as everywhere in the embedding. *)
#[warnings="-register-all"]
Inductive json : Type :=
| JNull
| JBool (b : bool)
| JNum (z : Z)
| JStr (s : string)
| JArr (items : list json)
| JObj (fields : list (string * json)).

(** The text of an inbound websocket message ([data.toString()]), given by
    what [JSON.parse] makes of it: a syntax error or a value. *)
Inductive message_text : Type :=
| Unparseable (text : string)
| Parses (v : json).

(** JavaScript truthiness of a parsed value ([rcvMsgJson && ...]). *)
Definition truthy (j : json) : bool :=
  match j with
  | JNull => false
  | JBool b => b
  | JNum z => negb (z =? 0)
  | JStr s => negb (String.eqb s EmptyString)
  | JArr _ => true
  | JObj _ => true
  end.

Fixpoint lookup_field (k : string) (fields : list (string * json)) : option json :=
  match fields with
  | [] => None
  | (k', v) :: rest => if String.eqb k k' then Some v else lookup_field k rest
  end.

(** [k in o] for an own property of a parsed object. *)
Definition has_own (k : string) (fields : list (string * json)) : bool :=
  match lookup_field k fields with
  | Some _ => true
  | None => false
  end.

(** [j.type]: the own property of an object; [undefined] when there is
    none and on every other value (no prototype has a [type]). *)
Definition get_type (j : json) : option json :=
  match j with
  | JObj fields => lookup_field "type" fields
  | _ => None
  end.

(** The string a parsed value is converted to, [None] when the conversion
    throws a TypeError. An array is joined with commas, [null] elements
    giving the empty string. An object is ["[object Object]"], unless it has
    an own [toString] property: parsed from JSON that property is not
    callable, [valueOf] yields no primitive either, and the conversion
    throws. *)
Fixpoint ToString (j : json) : option string :=
  match j with
  | JNull => Some "null"
  | JBool b => Some (if b then "true" else "false")
  | JNum z => Some (number_toString z)
  | JStr s => Some s
  | JArr items =>
      (fix join (l : list json) : option string :=
         match l with
         | [] => Some EmptyString
         | x :: rest =>
             match (match x with
                    | JNull => Some EmptyString
                    | _ => ToString x
                    end) with
             | None => None
             | Some sx =>
                 match rest with
                 | [] => Some sx
                 | _ :: _ =>
                     match join rest with
                     | None => None
                     | Some sr => Some (sx ++ "," ++ sr)%string
                     end
                 end
             end
         end) items
  | JObj fields =>
      if has_own "toString" fields then None else Some "[object Object]"
  end.

(** [v == s], the loose equality of a property value ([None] is
    [undefined]) with a string [s] that is not the text of a number, as
    ['ENCRYPTED'] is: [undefined] and [null] are unequal to it, a number or
    a boolean is compared with [ToNumber s], which is [NaN], a string is
    compared as it is, and an array or an object is first converted to a
    primitive, which is its string or a TypeError ([None]). *)
Definition loose_eq_string (v : option json) (s : string) : option bool :=
  match v with
  | None => Some false
  | Some JNull => Some false
  | Some (JBool _) => Some false
  | Some (JNum _) => Some false
  | Some (JStr t) => Some (String.eqb t s)
  | Some (JArr items) =>
      match ToString (JArr items) with
      | Some t => Some (String.eqb t s)
      | None => None
      end
  | Some (JObj fields) =>
      match ToString (JObj fields) with
      | Some t => Some (String.eqb t s)
      | None => None
      end
  end.

(** [j.type == s] evaluates to [true]. *)
Definition type_is (j : json) (s : string) : bool :=
  match loose_eq_string (get_type j) s with
  | Some true => true
  | _ => false
  end.

(** [j.type == s] throws a TypeError. *)
Definition type_throws (j : json) (s : string) : bool :=
  match loose_eq_string (get_type j) s with
  | None => true
  | Some _ => false
  end.

(** Modelled from the spec: the declarations of lib/frames are missing.
    A challenge carries a session key and an initial action id. *)
Record Challenge : Type := {
  sessionKey : string;
  initialActionId : Z
}.

(** Modelled from the spec: the declarations of lib/frames are missing.
    An action response echoes an id (the handler tests it against
    [undefined]) and has the type of the action it answers. *)
Record Response : Type := {
  response_id : option Z;
  response_type : string
}.

(** The decrypted payload of an ENCRYPTED frame, as the message handler
    looks at it: ['challenge' in p] and ['response' in p] are tested one
    after the other, neither excludes the other. The payload has the shape
    lib/frames declares for it: a [challenge] or a [response] that is there
    is an object with the fields above. What the handler does with a payload
    of another shape ([{response: null}], on which [response.id] throws) is
    not covered. *)
Record ReceivedEncryptedFrameContent : Type := {
  challenge : option Challenge;
  response : option Response
}.

(** The payload of an outbound action: [{action: {type, duration?, id}}]. *)
Record RemootioAction : Type := {
  action_type : string;
  action_duration : option Z;
  action_id : Z
}.

(** Modelled from the spec: the declarations of lib/frames are missing.
    The wire form of an ENCRYPTED frame: ciphertext, iv and integrity tag. *)
Record EncryptedFrame : Type := {
  payload : string;
  iv : string;
  hmac : string
}.

(** The frames the client writes: [{type: 'AUTH'}] and the like, or an
    ENCRYPTED frame. *)
Inductive SentFrames : Type :=
| PlainFrame (type : string)
| Encrypted (f : EncryptedFrame).

(** ** The instance and its world *)

Inductive ReadyState : Type := CONNECTING | OPEN | CLOSING | CLOSED.

Definition ReadyState_eqb (a b : ReadyState) : bool :=
  match a, b with
  | CONNECTING, CONNECTING | OPEN, OPEN | CLOSING, CLOSING | CLOSED, CLOSED => true
  | _, _ => false
  end.

Record WebSocket : Type := {
  url : string;
  readyState : ReadyState
}.

Definition handle := nat.

Record RemootioDevice : Type := {
  apiSecretKey : string;
  apiAuthKey : string;
  deviceIp : string;
  websocketClient : option WebSocket;
  apiSessionKey : option string;
  lastActionId : option Z;
  autoReconnect : bool;
  port : Z;
  sendPingMessageEveryXMs : Z;
  sendPingMessageIntervalHandle : option handle;
  pingReplyTimeoutXMs : Q;
  pingReplyTimeoutHandle : option handle;
  waitingForAuthenticationQueryActionResponse : option bool;
  _events : list string
}.

(** What is thrown and what an ['error'] event carries: the two strings
    the class passes to [emit ('error', ...)], and the Error objects
    ([SyntaxError] of [JSON.parse], [TypeError] of a conversion, and the
    error [EventEmitter] wraps around a string nobody listens to). *)
Inductive exn : Type :=
| SyntaxError (text : string)
| Message (m : string)
| NoPingResponse (ms : Q)
| TypeError (m : string)
| Unhandled (context : exn).

(** The events of [RemootioDeviceEvents], in a module of their own since
    ['disconnect'] is also the name of a method. *)
Module Event.
Inductive event : Type :=
| connecting
| connected
| authenticated
| disconnect
| error (errorMessage : exn)
| outgoingmessage (frame : SentFrames) (unencryptedPayload : option RemootioAction)
| incomingmessage (frame : json) (decryptedPayload : option ReceivedEncryptedFrameContent).
End Event.

Inductive effect : Type :=
| Emit (e : Event.event)
| Send (f : SentFrames)
| Warn (m : string)
| ConsoleError (m : string)
| NewWebSocket (u : string)
| Close
| Terminate
| SetInterval (h : handle) (ms : Z)
| SetTimeout (h : handle) (ms : Q)
| ClearInterval (h : handle)
| ClearTimeout (h : handle).

Inductive timer_kind : Type := Interval | Timeout.

Record World : Type := {
  this : RemootioDevice;
  timers : list (handle * timer_kind);
  fresh : handle;
  trace : list effect
}.

(** ** Field updates *)

Definition set_websocketClient (v : option WebSocket) (d : RemootioDevice) :=
  {| apiSecretKey := apiSecretKey d; apiAuthKey := apiAuthKey d;
     deviceIp := deviceIp d; websocketClient := v;
     apiSessionKey := apiSessionKey d; lastActionId := lastActionId d;
     autoReconnect := autoReconnect d; port := port d;
     sendPingMessageEveryXMs := sendPingMessageEveryXMs d;
     sendPingMessageIntervalHandle := sendPingMessageIntervalHandle d;
     pingReplyTimeoutXMs := pingReplyTimeoutXMs d;
     pingReplyTimeoutHandle := pingReplyTimeoutHandle d;
     waitingForAuthenticationQueryActionResponse :=
       waitingForAuthenticationQueryActionResponse d;
     _events := _events d |}.

Definition set_apiSessionKey (v : option string) (d : RemootioDevice) :=
  {| apiSecretKey := apiSecretKey d; apiAuthKey := apiAuthKey d;
     deviceIp := deviceIp d; websocketClient := websocketClient d;
     apiSessionKey := v; lastActionId := lastActionId d;
     autoReconnect := autoReconnect d; port := port d;
     sendPingMessageEveryXMs := sendPingMessageEveryXMs d;
     sendPingMessageIntervalHandle := sendPingMessageIntervalHandle d;
     pingReplyTimeoutXMs := pingReplyTimeoutXMs d;
     pingReplyTimeoutHandle := pingReplyTimeoutHandle d;
     waitingForAuthenticationQueryActionResponse :=
       waitingForAuthenticationQueryActionResponse d;
     _events := _events d |}.

Definition set_lastActionId (v : option Z) (d : RemootioDevice) :=
  {| apiSecretKey := apiSecretKey d; apiAuthKey := apiAuthKey d;
     deviceIp := deviceIp d; websocketClient := websocketClient d;
     apiSessionKey := apiSessionKey d; lastActionId := v;
     autoReconnect := autoReconnect d; port := port d;
     sendPingMessageEveryXMs := sendPingMessageEveryXMs d;
     sendPingMessageIntervalHandle := sendPingMessageIntervalHandle d;
     pingReplyTimeoutXMs := pingReplyTimeoutXMs d;
     pingReplyTimeoutHandle := pingReplyTimeoutHandle d;
     waitingForAuthenticationQueryActionResponse :=
       waitingForAuthenticationQueryActionResponse d;
     _events := _events d |}.

Definition set_autoReconnect (v : bool) (d : RemootioDevice) :=
  {| apiSecretKey := apiSecretKey d; apiAuthKey := apiAuthKey d;
     deviceIp := deviceIp d; websocketClient := websocketClient d;
     apiSessionKey := apiSessionKey d; lastActionId := lastActionId d;
     autoReconnect := v; port := port d;
     sendPingMessageEveryXMs := sendPingMessageEveryXMs d;
     sendPingMessageIntervalHandle := sendPingMessageIntervalHandle d;
     pingReplyTimeoutXMs := pingReplyTimeoutXMs d;
     pingReplyTimeoutHandle := pingReplyTimeoutHandle d;
     waitingForAuthenticationQueryActionResponse :=
       waitingForAuthenticationQueryActionResponse d;
     _events := _events d |}.

Definition set_port (v : Z) (d : RemootioDevice) :=
  {| apiSecretKey := apiSecretKey d; apiAuthKey := apiAuthKey d;
     deviceIp := deviceIp d; websocketClient := websocketClient d;
     apiSessionKey := apiSessionKey d; lastActionId := lastActionId d;
     autoReconnect := autoReconnect d; port := v;
     sendPingMessageEveryXMs := sendPingMessageEveryXMs d;
     sendPingMessageIntervalHandle := sendPingMessageIntervalHandle d;
     pingReplyTimeoutXMs := pingReplyTimeoutXMs d;
     pingReplyTimeoutHandle := pingReplyTimeoutHandle d;
     waitingForAuthenticationQueryActionResponse :=
       waitingForAuthenticationQueryActionResponse d;
     _events := _events d |}.

Definition set_sendPingMessageIntervalHandle (v : option handle) (d : RemootioDevice) :=
  {| apiSecretKey := apiSecretKey d; apiAuthKey := apiAuthKey d;
     deviceIp := deviceIp d; websocketClient := websocketClient d;
     apiSessionKey := apiSessionKey d; lastActionId := lastActionId d;
     autoReconnect := autoReconnect d; port := port d;
     sendPingMessageEveryXMs := sendPingMessageEveryXMs d;
     sendPingMessageIntervalHandle := v;
     pingReplyTimeoutXMs := pingReplyTimeoutXMs d;
     pingReplyTimeoutHandle := pingReplyTimeoutHandle d;
     waitingForAuthenticationQueryActionResponse :=
       waitingForAuthenticationQueryActionResponse d;
     _events := _events d |}.

Definition set_pingReplyTimeoutHandle (v : option handle) (d : RemootioDevice) :=
  {| apiSecretKey := apiSecretKey d; apiAuthKey := apiAuthKey d;
     deviceIp := deviceIp d; websocketClient := websocketClient d;
     apiSessionKey := apiSessionKey d; lastActionId := lastActionId d;
     autoReconnect := autoReconnect d; port := port d;
     sendPingMessageEveryXMs := sendPingMessageEveryXMs d;
     sendPingMessageIntervalHandle := sendPingMessageIntervalHandle d;
     pingReplyTimeoutXMs := pingReplyTimeoutXMs d;
     pingReplyTimeoutHandle := v;
     waitingForAuthenticationQueryActionResponse :=
       waitingForAuthenticationQueryActionResponse d;
     _events := _events d |}.

Definition set_waitingForAuthenticationQueryActionResponse
    (v : option bool) (d : RemootioDevice) :=
  {| apiSecretKey := apiSecretKey d; apiAuthKey := apiAuthKey d;
     deviceIp := deviceIp d; websocketClient := websocketClient d;
     apiSessionKey := apiSessionKey d; lastActionId := lastActionId d;
     autoReconnect := autoReconnect d; port := port d;
     sendPingMessageEveryXMs := sendPingMessageEveryXMs d;
     sendPingMessageIntervalHandle := sendPingMessageIntervalHandle d;
     pingReplyTimeoutXMs := pingReplyTimeoutXMs d;
     pingReplyTimeoutHandle := pingReplyTimeoutHandle d;
     waitingForAuthenticationQueryActionResponse := v;
     _events := _events d |}.

Definition set__events (v : list string) (d : RemootioDevice) :=
  {| apiSecretKey := apiSecretKey d; apiAuthKey := apiAuthKey d;
     deviceIp := deviceIp d; websocketClient := websocketClient d;
     apiSessionKey := apiSessionKey d; lastActionId := lastActionId d;
     autoReconnect := autoReconnect d; port := port d;
     sendPingMessageEveryXMs := sendPingMessageEveryXMs d;
     sendPingMessageIntervalHandle := sendPingMessageIntervalHandle d;
     pingReplyTimeoutXMs := pingReplyTimeoutXMs d;
     pingReplyTimeoutHandle := pingReplyTimeoutHandle d;
     waitingForAuthenticationQueryActionResponse :=
       waitingForAuthenticationQueryActionResponse d;
     _events := v |}.

(** ** The monad of the callbacks: state, and exceptions that keep the state *)

Inductive outcome (A : Type) : Type :=
| Returned (a : A) (w : World)
| Threw (e : exn) (w : World).

Arguments Threw {A} e w.

Definition Js (A : Type) : Type := World -> outcome A.

Definition ret {A} (a : A) : Js A := fun w => Returned a w.

Definition throw {A} (e : exn) : Js A := fun w => Threw e w.

Definition bind {A B} (m : Js A) (k : A -> Js B) : Js B :=
  fun w => match m w with
           | Returned a w' => k a w'
           | Threw e w' => Threw e w'
           end.

(** [try { m } catch (e) { handler e }] *)
Definition try_catch {A} (m : Js A) (handler : exn -> Js A) : Js A :=
  fun w => match m w with
           | Returned a w' => Returned a w'
           | Threw e w' => handler e w'
           end.

Declare Scope js_scope.
Delimit Scope js_scope with js.
Notation "x <- m ;; k" := (bind m (fun x => k))
  (at level 61, m at next level, right associativity) : js_scope.
Notation "m ;; k" := (bind m (fun _ => k))
  (at level 61, right associativity) : js_scope.
Local Open Scope js_scope.

(** The world a computation leaves, however it ends. *)
Definition world_of {A} (o : outcome A) : World :=
  match o with
  | Returned _ w => w
  | Threw _ w => w
  end.

Definition exec {A} (m : Js A) (w : World) : World := world_of (m w).

Definition get_this : Js RemootioDevice := fun w => Returned (this w) w.

Definition modify (f : RemootioDevice -> RemootioDevice) : Js unit :=
  fun w => Returned tt
    {| this := f (this w); timers := timers w; fresh := fresh w; trace := trace w |}.

Definition log (e : effect) : Js unit :=
  fun w => Returned tt
    {| this := this w; timers := timers w; fresh := fresh w;
       trace := trace w ++ [e] |}.

(** Is there a listener for ['error'] among the registered ones. *)
Definition has_error_listener (events : list string) : bool :=
  existsb (String.eqb "error") events.

(** What [EventEmitter] throws for an ['error'] without listener: the
    argument itself when it is an Error object, an error that wraps it when
    it is a string. *)
Definition unhandled (er : exn) : exn :=
  match er with
  | Message _ => Unhandled er
  | NoPingResponse _ => Unhandled er
  | _ => er
  end.

(** [this.emit (event, ...)] of [EventEmitter]: an ['error'] that has no
    listener is thrown; every other call returns and is recorded. *)
Definition emit (e : Event.event) : Js unit :=
  match e with
  | Event.error er =>
      d <- get_this ;;
      if has_error_listener (_events d) then log (Emit e)
      else throw (unhandled er)
  | _ => log (Emit e)
  end.

(** [this.on (eventName, listener)] of [EventEmitter]: the listener is
    registered under the name. *)
Definition on (eventName : string) : Js unit :=
  d <- get_this ;;
  modify (set__events (_events d ++ [eventName])).

Definition console_warn (m : string) : Js unit := log (Warn m).

(** [JSON.parse], which throws on a text that is not JSON. *)
Definition JSON_parse (data : message_text) : Js json :=
  match data with
  | Unparseable text => throw (SyntaxError text)
  | Parses v => ret v
  end.

(** ** Timers of the event loop *)

Definition remove_timer (h : handle) (l : list (handle * timer_kind)) :=
  filter (fun t => negb (Nat.eqb (fst t) h)) l.

Definition add_timer (k : timer_kind) : Js handle :=
  fun w => Returned (fresh w)
    {| this := this w; timers := timers w ++ [(fresh w, k)];
       fresh := S (fresh w); trace := trace w |}.

Definition drop_timer (h : handle) : Js unit :=
  fun w => Returned tt
    {| this := this w; timers := remove_timer h (timers w);
       fresh := fresh w; trace := trace w |}.

Definition setInterval (ms : Z) : Js handle :=
  h <- add_timer Interval ;; log (SetInterval h ms) ;; ret h.

Definition setTimeout (ms : Q) : Js handle :=
  h <- add_timer Timeout ;; log (SetTimeout h ms) ;; ret h.

Definition clearInterval (h : handle) : Js unit :=
  drop_timer h ;; log (ClearInterval h).

Definition clearTimeout (h : handle) : Js unit :=
  drop_timer h ;; log (ClearTimeout h).

Fixpoint live_timer (h : handle) (l : list (handle * timer_kind)) : option timer_kind :=
  match l with
  | [] => None
  | (h', k) :: rest => if Nat.eqb h' h then Some k else live_timer h rest
  end.

(** ** The action sequencer *)

(** [(this.lastActionId + 1) % 0x7fffffff], the id every action helper
    gives its action; [%] truncates like [Z.rem]. *)
Definition next_action_id (lastActionId : Z) : Z :=
  Z.rem (lastActionId + 1) 0x7fffffff.

(** ** The constructor *)

Definition is_hex (c : ascii) : bool :=
  let n := nat_of_ascii c in
  ((48 <=? n) && (n <=? 57) || (65 <=? n) && (n <=? 70)
   || (97 <=? n) && (n <=? 102))%nat.

(** [/[0-9A-Fa-f]{64}/g.test s] on a fresh expression: does [s] hold 64
    hexadecimal digits in a row; [run] counts the digits just read. *)
Fixpoint hexstringRe_test_from (run : nat) (s : string) : bool :=
  match s with
  | EmptyString => false
  | String c rest =>
      if is_hex c
      then (if Nat.eqb (S run) 64 then true else hexstringRe_test_from (S run) rest)
      else hexstringRe_test_from 0 rest
  end.

Definition hexstringRe_test (s : string) : bool := hexstringRe_test_from 0 s.

Definition new_RemootioDevice (DeviceIp ApiSecretKey ApiAuthKey : string)
    (sendPingMessageEveryXMs : option Z) : World :=
  let every :=
    match sendPingMessageEveryXMs with
    | Some ms => if ms =? 0 then 60000 else ms
    | None => 60000
    end in
  {| this :=
       {| apiSecretKey := ApiSecretKey;
          apiAuthKey := ApiAuthKey;
          deviceIp := DeviceIp;
          websocketClient := None;
          apiSessionKey := None;
          lastActionId := None;
          autoReconnect := false;
          port := 8080;
          sendPingMessageEveryXMs := every;
          sendPingMessageIntervalHandle := None;
          pingReplyTimeoutXMs := Qmake every 2;
          pingReplyTimeoutHandle := None;
          waitingForAuthenticationQueryActionResponse := Some false;
          _events := [] |};
     timers := [];
     fresh := O;
     trace :=
       (if hexstringRe_test ApiSecretKey then []
        else [ConsoleError
                "ApiSecretKey must be a hexstring representing a 256bit long byteArray"])
       ++
       (if hexstringRe_test ApiAuthKey then []
        else [ConsoleError
                "ApiAuthKey must be a hexstring representing a 256bit long byteArray"]) |}.

(** ** Methods and callbacks *)

(** [websocketClient != undefined && websocketClient.readyState == WebSocket.OPEN] *)
Definition is_open (d : RemootioDevice) : bool :=
  match websocketClient d with
  | Some ws => ReadyState_eqb (readyState ws) OPEN
  | None => false
  end.

Section Device.

(** lib/apicrypto is not part of the sources at hand: its two entry
    points are parameters. Decryption returns the payload or [undefined];
    the construction of a frame has [JSON.stringify] of the payload
    folded in. *)
Variable remootioApiDecryptEncrypedFrame :
  json -> string -> string -> option string ->
  option ReceivedEncryptedFrameContent.
Variable remootioApiConstructEncrypedFrame :
  RemootioAction -> string -> string -> string -> EncryptedFrame.

Definition sendFrame (frameJson : SentFrames) : Js unit :=
  d <- get_this ;;
  if is_open d then
    log (Send frameJson) ;;
    emit (Event.outgoingmessage frameJson None)
  else
    console_warn "The websocket client is not connected".

Definition sendEncryptedFrame (unencryptedPayload : RemootioAction) : Js unit :=
  d <- get_this ;;
  if is_open d then
    match apiSessionKey d with
    | Some key =>
        let encryptedFrame :=
          remootioApiConstructEncrypedFrame unencryptedPayload
            (apiSecretKey d) (apiAuthKey d) key in
        log (Send (Encrypted encryptedFrame)) ;;
        emit (Event.outgoingmessage (Encrypted encryptedFrame) (Some unencryptedPayload))
    | None => console_warn "Authenticate session first to send this message"
    end
  else
    console_warn "The websocket client is not connected".

Definition authenticate : Js unit := sendFrame (PlainFrame "AUTH").

Definition sendHello : Js unit := sendFrame (PlainFrame "HELLO").

Definition sendPing : Js unit := sendFrame (PlainFrame "PING").

(** The body the ten action helpers share: the action gets the id after
    [lastActionId], or a warning is printed when there is none. *)
Definition send_action (type : string) (duration : option Z) : Js unit :=
  d <- get_this ;;
  match lastActionId d with
  | Some last =>
      sendEncryptedFrame
        {| action_type := type;
           action_duration := duration;
           action_id := next_action_id last |}
  | None => console_warn "Unexpected error - lastActionId is undefined"
  end.

Definition sendQuery : Js unit := send_action "QUERY" None.
Definition sendTrigger : Js unit := send_action "TRIGGER" None.
Definition sendTriggerSecondary : Js unit := send_action "TRIGGER_SECONDARY" None.
Definition sendOpen : Js unit := send_action "OPEN" None.
Definition sendClose : Js unit := send_action "CLOSE" None.
Definition holdTriggerOutputActive (durationMins : Z) : Js unit :=
  send_action "TRIGGER" (Some durationMins).
Definition holdTriggerSecondaryOutputActive (durationMins : Z) : Js unit :=
  send_action "TRIGGER_SECONDARY" (Some durationMins).
Definition holdOpenOutputActive (durationMins : Z) : Js unit :=
  send_action "OPEN" (Some durationMins).
Definition holdCloseOutputActive (durationMins : Z) : Js unit :=
  send_action "CLOSE" (Some durationMins).
Definition sendRestart : Js unit := send_action "RESTART" None.

(** [connect]: the part that runs at the call. The four callbacks it
    registers on the new websocket follow, each under its own name. *)
Definition connect (autoReconnect_arg : bool) (port_arg : Z) : Js unit :=
  (if autoReconnect_arg then modify (set_autoReconnect true) else ret tt) ;;
  (if negb (port_arg =? 0) then modify (set_port port_arg) else ret tt) ;;
  modify (set_apiSessionKey None) ;;
  modify (set_lastActionId None) ;;
  modify (set_waitingForAuthenticationQueryActionResponse None) ;;
  d <- get_this ;;
  let u := "ws://" ++ deviceIp d ++ ":" ++ number_toString (port d) ++ "/" in
  modify (set_websocketClient (Some {| url := u; readyState := CONNECTING |})) ;;
  log (NewWebSocket u) ;;
  emit Event.connecting.

(** The callback of [setTimeout] in the ping interval: the watchdog. *)
Definition ping_reply_timeout_callback : Js unit :=
  d <- get_this ;;
  emit (Event.error (NoPingResponse (pingReplyTimeoutXMs d))) ;;
  match websocketClient d with
  | Some _ =>
      log Terminate ;;
      modify (set_pingReplyTimeoutHandle None)
  | None => ret tt
  end.

(** The callback of [setInterval] in the open handler. *)
Definition ping_interval_callback : Js unit :=
  d <- get_this ;;
  if is_open d then
    h <- setTimeout (pingReplyTimeoutXMs d) ;;
    modify (set_pingReplyTimeoutHandle (Some h)) ;;
    sendPing
  else ret tt.

(** [websocketClient.on('open', ...)] *)
Definition on_open : Js unit :=
  emit Event.connected ;;
  d <- get_this ;;
  h <- setInterval (sendPingMessageEveryXMs d) ;;
  modify (set_sendPingMessageIntervalHandle (Some h)).

(** [websocketClient.on('message', ...)] *)
Definition on_message (data : message_text) : Js unit :=
  try_catch
    (rcvMsgJson <- JSON_parse data ;;
     d <- get_this ;;
     match pingReplyTimeoutHandle d with
     | Some h =>
         clearTimeout h ;;
         modify (set_pingReplyTimeoutHandle None)
     | None => ret tt
     end ;;
     if truthy rcvMsgJson && type_throws rcvMsgJson "ENCRYPTED" then
       throw (TypeError "Cannot convert object to primitive value")
     else if truthy rcvMsgJson && type_is rcvMsgJson "ENCRYPTED" then
       d <- get_this ;;
       let decryptedPayload :=
         remootioApiDecryptEncrypedFrame rcvMsgJson
           (apiSecretKey d) (apiAuthKey d) (apiSessionKey d) in
       emit (Event.incomingmessage rcvMsgJson decryptedPayload) ;;
       match decryptedPayload with
       | Some p =>
           match challenge p with
           | Some c =>
               modify (set_apiSessionKey (Some (sessionKey c))) ;;
               modify (set_lastActionId (Some (initialActionId c))) ;;
               modify (set_waitingForAuthenticationQueryActionResponse (Some true)) ;;
               sendQuery
           | None => ret tt
           end ;;
           match response p with
           | Some r =>
               match response_id r with
               | Some rid =>
                   d <- get_this ;;
                   match lastActionId d with
                   | Some last =>
                       if (last <? rid) || ((rid =? 0) && (last =? 0x7fffffff))
                       then modify (set_lastActionId (Some rid))
                       else ret tt
                   | None =>
                       console_warn "Unexpected error - lastActionId is undefined"
                   end ;;
                   d <- get_this ;;
                   if String.eqb (response_type r) "QUERY"
                      && match waitingForAuthenticationQueryActionResponse d with
                         | Some true => true
                         | _ => false
                         end
                   then
                     modify (set_waitingForAuthenticationQueryActionResponse
                               (Some false)) ;;
                     emit Event.authenticated
                   else ret tt
               | None => ret tt
               end
           | None => ret tt
           end
       | None => emit (Event.error (Message "Authentication or encryption error"))
       end
     else
       emit (Event.incomingmessage rcvMsgJson None))
    (fun e => emit (Event.error e)).

(** [websocketClient.on('close', ...)] *)
Definition on_close : Js unit :=
  d <- get_this ;;
  match sendPingMessageIntervalHandle d with
  | Some h =>
      clearInterval h ;;
      modify (set_sendPingMessageIntervalHandle None)
  | None => ret tt
  end ;;
  d <- get_this ;;
  (if autoReconnect d then connect (autoReconnect d) (port d) else ret tt) ;;
  emit Event.disconnect.

(** [websocketClient.on('error', ...)]: an empty callback. *)
Definition on_error : Js unit := ret tt.

Definition disconnect : Js unit :=
  d <- get_this ;;
  match websocketClient d with
  | Some _ =>
      modify (set_autoReconnect false) ;;
      log Close
  | None => ret tt
  end.

(** The event loop runs the callback of a timer that is still live; a
    timeout is spent when it fires, an interval stays. *)
Definition fire (h : handle) : Js unit :=
  fun w =>
    match live_timer h (timers w) with
    | Some Interval => ping_interval_callback w
    | Some Timeout => (drop_timer h ;; ping_reply_timeout_callback) w
    | None => Returned tt w
    end.

(** ** Readable properties *)

Definition isConnected (d : RemootioDevice) : bool :=
  if is_open d then true else false.

Definition theLastActionId (d : RemootioDevice) : option Z := lastActionId d.

Definition isAuthenticated (d : RemootioDevice) : bool :=
  if is_open d then
    match apiSessionKey d with
    | Some _ => true
    | None => false
    end
  else false.

End Device.

(** ** The event loop around the instance *)

(** The websocket library moves the [readyState] of the current client. *)
Definition transport_becomes (rs : ReadyState) : Js unit :=
  d <- get_this ;;
  match websocketClient d with
  | Some ws => modify (set_websocketClient (Some {| url := url ws; readyState := rs |}))
  | None => ret tt
  end.

(** The public methods, as calls of the embedding application. *)
Inductive method : Type :=
| On (eventName : string)
| Connect (autoReconnect_arg : bool) (port_arg : Z)
| Disconnect
| SendFrame (frameJson : SentFrames)
| SendEncryptedFrame (unencryptedPayload : RemootioAction)
| Authenticate
| SendHello
| SendPing
| SendQuery
| SendTrigger
| SendTriggerSecondary
| SendOpen
| SendClose
| HoldTriggerOutputActive (durationMins : Z)
| HoldTriggerSecondaryOutputActive (durationMins : Z)
| HoldOpenOutputActive (durationMins : Z)
| HoldCloseOutputActive (durationMins : Z)
| SendRestart.

(** The callbacks the event loop runs: those of the websocket and the timers. *)
Inductive callback : Type :=
| OnOpen
| OnMessage (data : message_text)
| OnClose
| OnError
| Fire (h : handle).

Section EventLoop.

Variable remootioApiDecryptEncrypedFrame :
  json -> string -> string -> option string ->
  option ReceivedEncryptedFrameContent.
Variable remootioApiConstructEncrypedFrame :
  RemootioAction -> string -> string -> string -> EncryptedFrame.

Definition call (m : method) : Js unit :=
  match m with
  | On eventName => on eventName
  | Connect a p => connect a p
  | Disconnect => disconnect
  | SendFrame f => sendFrame f
  | SendEncryptedFrame p =>
      sendEncryptedFrame remootioApiConstructEncrypedFrame p
  | Authenticate => authenticate
  | SendHello => sendHello
  | SendPing => sendPing
  | SendQuery => sendQuery remootioApiConstructEncrypedFrame
  | SendTrigger => sendTrigger remootioApiConstructEncrypedFrame
  | SendTriggerSecondary => sendTriggerSecondary remootioApiConstructEncrypedFrame
  | SendOpen => sendOpen remootioApiConstructEncrypedFrame
  | SendClose => sendClose remootioApiConstructEncrypedFrame
  | HoldTriggerOutputActive m =>
      holdTriggerOutputActive remootioApiConstructEncrypedFrame m
  | HoldTriggerSecondaryOutputActive m =>
      holdTriggerSecondaryOutputActive remootioApiConstructEncrypedFrame m
  | HoldOpenOutputActive m =>
      holdOpenOutputActive remootioApiConstructEncrypedFrame m
  | HoldCloseOutputActive m =>
      holdCloseOutputActive remootioApiConstructEncrypedFrame m
  | SendRestart => sendRestart remootioApiConstructEncrypedFrame
  end.

Definition run_callback (c : callback) : Js unit :=
  match c with
  | OnOpen => on_open
  | OnMessage data =>
      on_message remootioApiDecryptEncrypedFrame
        remootioApiConstructEncrypedFrame data
  | OnClose => on_close
  | OnError => on_error
  | Fire h => fire h
  end.

(** One turn of the event loop: a call of a method, a callback, or a
    change of [readyState] by the transport. Any of them at any time:
    more than the event loop allows, which is enough for invariants. *)
Inductive step : World -> World -> Prop :=
| step_call (m : method) (w : World) : step w (exec (call m) w)
| step_callback (c : callback) (w : World) : step w (exec (run_callback c) w)
| step_transport (rs : ReadyState) (w : World) :
    step w (exec (transport_becomes rs) w).

(** The worlds an instance can be in, from its construction on. *)
Inductive reachable : World -> Prop :=
| reachable_new (DeviceIp ApiSecretKey ApiAuthKey : string)
    (sendPingMessageEveryXMs_arg : option Z) :
    reachable (new_RemootioDevice DeviceIp ApiSecretKey ApiAuthKey
                 sendPingMessageEveryXMs_arg)
| reachable_step (w w' : World) :
    reachable w -> step w w' -> reachable w'.

End EventLoop.

(** ** Predicates of the properties *)

(** The modulus of the action ids. *)
Definition modulus : Z := 0x7fffffff.

(** The session data: key, counter and handshake flag are all absent. *)
Definition session_cleared (d : RemootioDevice) : Prop :=
  apiSessionKey d = None
  /\ lastActionId d = None
  /\ waitingForAuthenticationQueryActionResponse d = None.

Definition same_session (d d' : RemootioDevice) : Prop :=
  apiSessionKey d' = apiSessionKey d
  /\ lastActionId d' = lastActionId d
  /\ waitingForAuthenticationQueryActionResponse d' =
     waitingForAuthenticationQueryActionResponse d.

(** The socket and the reconnection policy are as they were. *)
Definition same_connection (d d' : RemootioDevice) : Prop :=
  websocketClient d' = websocketClient d
  /\ autoReconnect d' = autoReconnect d
  /\ port d' = port d.

(** What the message handler does to an armed watchdog once the text has
    parsed. *)
Definition disarm (d : RemootioDevice) : list effect :=
  match pingReplyTimeoutHandle d with
  | Some h => [ClearTimeout h]
  | None => []
  end.

(** The session key and the counter are present together: the challenge
    installs both, [connect] clears both. *)
Definition coherent (d : RemootioDevice) : Prop :=
  match apiSessionKey d, lastActionId d with
  | Some _, Some _ => True
  | None, None => True
  | _, _ => False
  end.

(** A watchdog is armed on an open websocket only: while there is no
    websocket, no timeout is live. *)
Definition watchdog_has_socket (w : World) : Prop :=
  websocketClient (this w) = None ->
  forall h, ~ In (h, Timeout) (timers w).

Definition invariant (w : World) : Prop :=
  coherent (this w) /\ watchdog_has_socket w.

(** The computation returns, leaves the instance and the timers as they
    were and has one effect, a warning on the console: nothing is written
    to the transport and nothing is thrown. *)
Definition warns_only (m : Js unit) (w : World) : Prop :=
  exists msg,
    m w = Returned tt
            {| this := this w; timers := timers w; fresh := fresh w;
               trace := trace w ++ [Warn msg] |}.

(** [sendEncryptedFrame] and the ten action helpers. *)
Definition needs_session (m : method) : bool :=
  match m with
  | SendEncryptedFrame _
  | SendQuery | SendTrigger | SendTriggerSecondary | SendOpen | SendClose
  | HoldTriggerOutputActive _ | HoldTriggerSecondaryOutputActive _
  | HoldOpenOutputActive _ | HoldCloseOutputActive _ | SendRestart => true
  | _ => false
  end.

(** Every character of [s] is a hexadecimal digit. *)
Fixpoint all_hex (s : string) : bool :=
  match s with
  | EmptyString => true
  | String c rest => is_hex c && all_hex rest
  end.

(** Any number of turns of the event loop. *)
Inductive steps
    (decrypt : json -> string -> string -> option string ->
               option ReceivedEncryptedFrameContent)
    (construct : RemootioAction -> string -> string -> string -> EncryptedFrame)
    : World -> World -> Prop :=
| steps_none (w : World) : steps decrypt construct w w
| steps_more (w w' w'' : World) :
    steps decrypt construct w w' -> step decrypt construct w' w'' ->
    steps decrypt construct w w''.

(** The part of the instance the constructor fixes: the credentials, the
    address and the two periods of the keepalive. *)
Definition same_configuration (d d' : RemootioDevice) : Prop :=
  apiSecretKey d' = apiSecretKey d
  /\ apiAuthKey d' = apiAuthKey d
  /\ deviceIp d' = deviceIp d
  /\ sendPingMessageEveryXMs d' = sendPingMessageEveryXMs d
  /\ pingReplyTimeoutXMs d' = pingReplyTimeoutXMs d.

(** The effects a run has added to the trace of [w]. *)
Definition emitted_since (w w' : World) : list effect :=
  skipn (List.length (trace w)) (trace w').

(** Every live timer has a handle the event loop has already given out. *)
Definition handles_given_out (w : World) : Prop :=
  forall t, In t (timers w) -> (fst t < fresh w)%nat.

(** ** Fixtures for concrete runs *)

(** A stand-in for the decryption that yields the payload [p] whatever the
    frame and the keys. *)
Definition decrypts_to (p : ReceivedEncryptedFrameContent) :
    json -> string -> string -> option string ->
    option ReceivedEncryptedFrameContent :=
  fun _ _ _ _ => Some p.

(** A stand-in for the construction of an ENCRYPTED frame. *)
Definition construct_stub :
    RemootioAction -> string -> string -> string -> EncryptedFrame :=
  fun a _ _ key => {| payload := action_type a; iv := key; hmac := key |}.

Definition encrypted_frame : json := JObj [("type", JStr "ENCRYPTED")].

Definition query_response (rid : Z) : ReceivedEncryptedFrameContent :=
  {| challenge := None;
     response := Some {| response_id := Some rid; response_type := "QUERY" |} |}.

Definition challenge_payload (key : string) (initial : Z) :
    ReceivedEncryptedFrameContent :=
  {| challenge := Some {| sessionKey := key; initialActionId := initial |};
     response := None |}.

(** An instance connected to 192.168.1.155 with an open websocket, a session
    key, the counter at [last], the given handshake flag and a listener for
    ['error']. *)
Definition session_world (last : Z) (waiting : option bool) (auto : bool) : World :=
  {| this :=
       {| apiSecretKey := "secret"; apiAuthKey := "auth";
          deviceIp := "192.168.1.155";
          websocketClient :=
            Some {| url := "ws://192.168.1.155:8080/"; readyState := OPEN |};
          apiSessionKey := Some "session";
          lastActionId := Some last;
          autoReconnect := auto;
          port := 8080;
          sendPingMessageEveryXMs := 60000;
          sendPingMessageIntervalHandle := Some O;
          pingReplyTimeoutXMs := Qmake 60000 2;
          pingReplyTimeoutHandle := None;
          waitingForAuthenticationQueryActionResponse := waiting;
          _events := ["error"] |};
     timers := [(O, Interval)];
     fresh := 1%nat;
     trace := [] |}.

(** A connected instance whose ping interval has just sent a probe: the
    constructor, a listener for ['error'], [connect (true, 8080)], the
    transport opening, and the first tick of the interval (timer 0), which
    arms the watchdog (timer 1). *)
Definition probe_sent_world : World :=
  exec (on "error" ;;
        connect true 8080 ;;
        transport_becomes OPEN ;;
        on_open ;;
        fire 0%nat)
    (new_RemootioDevice "192.168.1.155"
       "12b3f03211c384736b8a1906635f4abc90074e680138a689caf03485a971efb3"
       "74ca13b56b3c898670a67e8f36f8b8a61340738c82617ba1398ae7ca62f1670a"
       None).

(** The instance of [probe_sent_world] without the listener for ['error']:
    the constructor, [connect (true, 8080)], the transport opening and the
    first tick of the interval. *)
Definition unheard_probe_world : World :=
  exec (connect true 8080 ;;
        transport_becomes OPEN ;;
        on_open ;;
        fire 0%nat)
    (new_RemootioDevice "192.168.1.155"
       "12b3f03211c384736b8a1906635f4abc90074e680138a689caf03485a971efb3"
       "74ca13b56b3c898670a67e8f36f8b8a61340738c82617ba1398ae7ca62f1670a"
       None).

(** The instance of [probe_sent_world] after the device has answered with a
    challenge: session key installed, counter at 5. *)
Definition challenged_world : World :=
  exec (on_message (decrypts_to (challenge_payload "fresh" 5)) construct_stub
          (Parses encrypted_frame))
    probe_sent_world.

(** A payload with both keys: a challenge and the response to a QUERY. *)
Definition challenge_and_response : ReceivedEncryptedFrameContent :=
  {| challenge := Some {| sessionKey := "fresh"; initialActionId := 5 |};
     response := Some {| response_id := Some 6; response_type := "QUERY" |} |}.

(** * Properties *)

(** ** Tactics that run the callbacks *)

Ltac open_world w :=
  let d := fresh "d" in
  destruct w as [d ? ? ?]; destruct d; cbn [this timers fresh trace
    apiSecretKey apiAuthKey deviceIp websocketClient apiSessionKey lastActionId
    autoReconnect port sendPingMessageEveryXMs sendPingMessageIntervalHandle
    pingReplyTimeoutXMs pingReplyTimeoutHandle
    waitingForAuthenticationQueryActionResponse _events] in *; subst.

Ltac run_cbv :=
  cbv [exec world_of on_message on_close on_open connect disconnect fire
       ping_interval_callback ping_reply_timeout_callback
       sendFrame sendEncryptedFrame send_action sendQuery sendPing
       try_catch bind ret throw JSON_parse get_this modify log emit console_warn
       clearTimeout clearInterval setTimeout setInterval add_timer drop_timer
       set_websocketClient set_apiSessionKey set_lastActionId set_autoReconnect
       set_port set_sendPingMessageIntervalHandle set_pingReplyTimeoutHandle
       set_waitingForAuthenticationQueryActionResponse set__events is_open
       on unhandled
       this timers fresh trace
       apiSecretKey apiAuthKey deviceIp websocketClient apiSessionKey lastActionId
       autoReconnect port sendPingMessageEveryXMs sendPingMessageIntervalHandle
       pingReplyTimeoutXMs pingReplyTimeoutHandle
       waitingForAuthenticationQueryActionResponse _events] in *.

(** Run as far as the tests allow; a test of the ['error'] listener that
    has been decided once is decided the same way again. *)
Ltac run_js :=
  run_cbv;
  repeat (match goal with
          | H : has_error_listener ?l = _ |- context [has_error_listener ?l] =>
              rewrite H
          end; run_cbv).

Ltac run_all :=
  cbv [call run_callback transport_becomes on_error authenticate sendHello
       sendTrigger sendTriggerSecondary sendOpen sendClose sendRestart
       holdTriggerOutputActive holdTriggerSecondaryOutputActive
       holdOpenOutputActive holdCloseOutputActive] in *;
  run_js.

(** Case analysis on a scrutinee that blocks the run and holds no other
    blocked test itself. *)
Ltac break_match :=
  match goal with
  | |- context [match ?x with _ => _ end] =>
      lazymatch x with
      | context [match _ with _ => _ end] => fail
      | _ => destruct x eqn:?
      end
  | |- context [if ?x then _ else _] =>
      lazymatch x with
      | context [match _ with _ => _ end] => fail
      | _ => destruct x eqn:?
      end
  end.

(** Two equations on the same term: their right-hand sides clash or agree. *)
Ltac clash :=
  repeat match goal with
  | H1 : ?l = ?a, H2 : ?l = ?b |- _ =>
      rewrite H1 in H2;
      first [discriminate H2 | injection H2 as ?; subst | clear H2]
  end.

Ltac flatten_trace :=
  repeat rewrite <- app_assoc; cbn [app].

(** The effects a run has added: those appended to the trace, or none. *)
Ltac split_trace :=
  flatten_trace;
  first [ eexists; split; [reflexivity|]
        | exists (@nil effect); split; [symmetry; apply app_nil_r|] ].

(** ** The test of the frame type *)

(** [['ENCRYPTED']] is loosely equal to ['ENCRYPTED']: the array is
    converted to the string of its only element. *)
Example array_type_is_ENCRYPTED :
  type_is (JObj [("type", JArr [JStr "ENCRYPTED"])]) "ENCRYPTED" = true.
Proof. reflexivity. Qed.

(** A [type] with an own [toString] property has no primitive value: the
    comparison throws. *)
Example object_type_throws :
  type_throws (JObj [("type", JObj [("toString", JNum 1)])]) "ENCRYPTED" = true
  /\ type_throws (JObj [("type", JObj [("id", JNum 1)])]) "ENCRYPTED" = false
  /\ type_is (JObj [("type", JObj [("id", JNum 1)])]) "ENCRYPTED" = false.
Proof. repeat split. Qed.

(** A frame whose type compares equal to [s] is one on which the
    comparison does not throw. *)
Lemma encrypted_frame_test (j : json) (s : string) :
  truthy j && type_is j s = true -> truthy j && type_throws j s = false.
Proof.
  unfold type_is, type_throws.
  destruct (truthy j), (loose_eq_string (get_type j) s) as [[|]|]; cbn;
    congruence.
Qed.

(** ** The action sequencer *)

Lemma next_action_id_mod (c : Z) :
  0 <= c -> next_action_id c = (c + 1) mod modulus.
Proof.
  intros Hc. unfold next_action_id, modulus.
  apply Z.rem_mod_nonneg; lia.
Qed.

(** [n] applications of the successor, from a counter that is not negative. *)
Lemma iter_next_action_id (n : N) (c : Z) :
  0 <= c ->
  N.iter n next_action_id c = (if (n =? 0)%N then c else (c + Z.of_N n) mod modulus).
Proof.
  intros Hc. induction n as [|n IH] using N.peano_ind.
  - reflexivity.
  - rewrite N.iter_succ, IH.
    replace (N.succ n =? 0)%N with false
      by (symmetry; apply N.eqb_neq; lia).
    destruct (N.eqb_spec n 0) as [->|Hn].
    + rewrite next_action_id_mod by lia. reflexivity.
    + rewrite next_action_id_mod
        by (apply Z.mod_pos_bound; unfold modulus; lia).
      rewrite Z.add_mod_idemp_l by (unfold modulus; lia).
      f_equal. lia.
Qed.

(** C5, as the spec states it, fails: [0x7FFFFFFF + 1] applications of the
    successor from 0 do not come back to 0. *)
Lemma next_wraparound_law_fails :
  N.iter (0x7FFFFFFF + 1) next_action_id 0 <> 0.
Proof.
  rewrite iter_next_action_id by lia.
  vm_compute. discriminate.
Qed.

(** C5 (amended): [n] applications of the successor
    [(counter + 1) mod 0x7FFFFFFF] from 0 give [n mod 0x7FFFFFFF]: applied
    0x7FFFFFFF times from 0 it returns to 0, and one application more
    gives 1. *)
Theorem next_returns_to_zero_after_modulus_steps :
  (forall n : N, N.iter n next_action_id 0 = Z.of_N n mod 0x7FFFFFFF)
  /\ N.iter 0x7FFFFFFF next_action_id 0 = 0
  /\ N.iter (0x7FFFFFFF + 1) next_action_id 0 = 1.
Proof.
  split; [|split].
  - intros n. rewrite iter_next_action_id by lia.
    destruct (N.eqb_spec n 0) as [->|_]; reflexivity.
  - rewrite iter_next_action_id by lia. vm_compute. reflexivity.
  - rewrite iter_next_action_id by lia. vm_compute. reflexivity.
Qed.

(** ** The message handler *)

(** C1: an action response with a defined echoed id [rid], arriving while
    the counter holds [c], moves [lastActionId] to [rid] when [rid] is
    greater than [c] or when [rid] is 0 and [c] is 0x7FFFFFFF, and leaves it
    at [c] in every other case. *)
Theorem response_updates_lastActionId
    (decrypt : json -> string -> string -> option string ->
               option ReceivedEncryptedFrameContent)
    (construct : RemootioAction -> string -> string -> string -> EncryptedFrame)
    (w : World) (frame : json) (p : ReceivedEncryptedFrameContent)
    (r : Response) (rid c : Z) :
  truthy frame && type_is frame "ENCRYPTED" = true ->
  decrypt frame (apiSecretKey (this w)) (apiAuthKey (this w))
    (apiSessionKey (this w)) = Some p ->
  challenge p = None ->
  response p = Some r ->
  response_id r = Some rid ->
  lastActionId (this w) = Some c ->
  let w' := exec (on_message decrypt construct (Parses frame)) w in
  ((c < rid \/ (rid = 0 /\ c = 0x7FFFFFFF)) -> lastActionId (this w') = Some rid)
  /\ (~ (c < rid \/ (rid = 0 /\ c = 0x7FFFFFFF)) -> lastActionId (this w') = Some c).
Proof.
  intros Henc Hdec Hch Hresp Hid Hc w'. subst w'.
  open_world w. run_js.
  destruct pingReplyTimeoutHandle0.
  all: rewrite (encrypted_frame_test _ _ Henc), Henc, Hdec, Hch, Hresp, Hid.
  all: destruct (c <? rid) eqn:Hlt; destruct (rid =? 0) eqn:H0;
    destruct (c =? 0x7fffffff) eqn:Hmax; cbn [orb andb].
  all: destruct (String.eqb (response_type r) "QUERY");
    destruct waitingForAuthenticationQueryActionResponse0 as [[|]|]; cbn.
  all: split; intros H; try reflexivity; exfalso.
  all: repeat match goal with
       | H : (_ <? _) = true |- _ => apply Z.ltb_lt in H
       | H : (_ <? _) = false |- _ => apply Z.ltb_ge in H
       | H : (_ =? _) = true |- _ => apply Z.eqb_eq in H
       | H : (_ =? _) = false |- _ => apply Z.eqb_neq in H
       end; lia.
Qed.

(** A QUERY response echoing id 3 while the counter is at 6 leaves it at 6. *)
Lemma response_updates_lastActionId_witness :
  lastActionId
    (this (exec (on_message (decrypts_to (query_response 3)) construct_stub
                   (Parses encrypted_frame))
             (session_world 6 (Some false) true))) = Some 6.
Proof.
  refine (proj2 (response_updates_lastActionId
                   (decrypts_to (query_response 3)) construct_stub
                   (session_world 6 (Some false) true) encrypted_frame
                   (p := query_response 3) (rid := 3) (c := 6)
                   eq_refl eq_refl eq_refl eq_refl eq_refl eq_refl) _).
  lia.
Defined.

(** C2, as the spec states it, fails: a QUERY response echoing id 3 while
    the counter is at 6 fails the acceptance rule, the counter stays at 6,
    and ['authenticated'] is emitted all the same. *)
Lemma authenticated_on_stale_response :
  let w' := exec (on_message (decrypts_to (query_response 3)) construct_stub
                    (Parses encrypted_frame))
              (session_world 6 (Some true) false) in
  ~ (6 < 3 \/ (3 = 0 /\ 6 = 0x7FFFFFFF))
  /\ lastActionId (this w') = Some 6
  /\ In (Emit Event.authenticated) (trace w').
Proof.
  split; [lia|]. split; [reflexivity|].
  vm_compute. right. left. reflexivity.
Qed.

(** C2 (amended): ['authenticated'] is emitted exactly when an ENCRYPTED
    frame decrypts to an action response with a defined echoed id whose
    type is QUERY while the handshake flag is set (it is set already, or
    the challenge of the same payload has just set it); whether the id
    passes the acceptance rule plays no part. Emitting it leaves the flag
    at [false]. *)
Theorem authenticated_emitted_iff
    (decrypt : json -> string -> string -> option string ->
               option ReceivedEncryptedFrameContent)
    (construct : RemootioAction -> string -> string -> string -> EncryptedFrame)
    (w : World) (data : message_text) :
  exists evs,
    trace (exec (on_message decrypt construct data) w) = (trace w ++ evs)%list
    /\ (In (Emit Event.authenticated) evs <->
        exists frame p r rid,
          data = Parses frame
          /\ truthy frame && type_is frame "ENCRYPTED" = true
          /\ decrypt frame (apiSecretKey (this w)) (apiAuthKey (this w))
               (apiSessionKey (this w)) = Some p
          /\ response p = Some r
          /\ response_id r = Some rid
          /\ response_type r = "QUERY"
          /\ (waitingForAuthenticationQueryActionResponse (this w) = Some true
              \/ challenge p <> None))
    /\ (In (Emit Event.authenticated) evs ->
        waitingForAuthenticationQueryActionResponse
          (this (exec (on_message decrypt construct data) w)) = Some false).
Proof.
  open_world w.
  destruct data as [text|frame]; run_js; repeat (break_match; run_js).
  all: split_trace; cbn [In].
  all: (split; [split|]).
  all: try (intros; reflexivity).
  all: try (intros H; repeat (destruct H as [H|H]; try discriminate); contradiction).
  all: try (intros _; tauto).
  all: try (match goal with
            | H : _ && false = true |- _ => rewrite andb_false_r in H; discriminate H
            end).
  all: try (intros _; exists frame; do 3 eexists;
            repeat (split; [first [reflexivity | eassumption]|]);
            match goal with
            | H : (String.eqb _ _) && _ = true |- _ =>
                apply andb_prop in H; destruct H as [H _];
                apply String.eqb_eq in H
            end;
            (split; [assumption|]);
            first [left; reflexivity | right; congruence]).
  all: try (intros (f' & p' & r' & rid' & Hd & He & Hp & Hr & Hi & Ht & Hw);
            exfalso; first [discriminate Hd | injection Hd as <-];
            try (rewrite (encrypted_frame_test _ _ He) in *; discriminate);
            clash;
            try rewrite Ht in *; cbn in *; try discriminate;
            destruct Hw; congruence).
Qed.

(** ** Connection lifecycle *)

(** C3, as the spec states it, fails: with [autoReconnect] off, the close
    handler leaves the session key, the counter and the flag as they were. *)
Lemma session_survives_close_without_autoReconnect :
  let w' := exec on_close (session_world 6 (Some false) false) in
  apiSessionKey (this w') = Some "session"
  /\ lastActionId (this w') = Some 6
  /\ waitingForAuthenticationQueryActionResponse (this w') = Some false.
Proof. repeat split. Qed.

(** C3 (amended): every call of [connect] clears the session key, the
    counter and the handshake flag; on a transport close with
    [autoReconnect] on, the handler calls [connect] and so clears them, and
    with [autoReconnect] off it leaves the three as they were (the next
    [connect] clears them). *)
Theorem close_clears_session_when_reconnecting (w : World) :
  (forall (a : bool) (p : Z), session_cleared (this (exec (connect a p) w)))
  /\ (if autoReconnect (this w)
      then session_cleared (this (exec on_close w))
      else same_session (this w) (this (exec on_close w))).
Proof.
  split.
  - intros a p. open_world w. run_js.
    destruct a, (p =? 0); repeat split.
  - open_world w. run_js.
    destruct sendPingMessageIntervalHandle0, autoReconnect0; run_js;
      try destruct (port0 =? 0); repeat split.
Qed.

(** ** Keepalive *)

(** C4: the close handler clears the ping interval only. On a close that
    comes while the watchdog is armed, the watchdog stays live, and when it
    fires after the teardown it emits ['error'] and terminates the websocket
    the reconnection has just created. *)
Theorem watchdog_fires_after_close :
  let w := exec (transport_becomes CLOSED ;; on_close) probe_sent_world in
  pingReplyTimeoutHandle (this probe_sent_world) = Some 1%nat
  /\ sendPingMessageIntervalHandle (this w) = None
  /\ pingReplyTimeoutHandle (this w) = Some 1%nat
  /\ timers w = [(1%nat, Timeout)]
  /\ trace (exec (fire 1%nat) w) =
     [NewWebSocket "ws://192.168.1.155:8080/";
      Emit Event.connecting;
      Emit Event.connected;
      SetInterval 0%nat 60000;
      SetTimeout 1%nat (Qmake 60000 2);
      Send (PlainFrame "PING");
      Emit (Event.outgoingmessage (PlainFrame "PING") None);
      ClearInterval 0%nat;
      NewWebSocket "ws://192.168.1.155:8080/";
      Emit Event.connecting;
      Emit Event.disconnect;
      Emit (Event.error (NoPingResponse (Qmake 60000 2)));
      Terminate].
Proof. vm_compute. repeat split. Qed.

(** ** Invariants of the reachable worlds *)

Lemma live_timer_In (h : handle) (k : timer_kind) (l : list (handle * timer_kind)) :
  live_timer h l = Some k -> In (h, k) l.
Proof.
  induction l as [|[h' k'] l IH]; cbn; [discriminate|].
  destruct (Nat.eqb h' h) eqn:Hh.
  - apply Nat.eqb_eq in Hh. intros [= ->]. subst. now left.
  - auto.
Qed.

Lemma In_remove_timer (t : handle * timer_kind) (h : handle)
    (l : list (handle * timer_kind)) :
  In t (remove_timer h l) -> In t l.
Proof. unfold remove_timer. intros H. apply filter_In in H. tauto. Qed.

Lemma In_add_interval (h f : handle) (l : list (handle * timer_kind)) :
  In (h, Timeout) (l ++ [(f, Interval)]) -> In (h, Timeout) l.
Proof.
  intros H. apply in_app_or in H. destruct H as [H|[H|[]]]; [assumption|].
  discriminate.
Qed.

Lemma invariant_new (DeviceIp ApiSecretKey ApiAuthKey : string) (ms : option Z) :
  invariant (new_RemootioDevice DeviceIp ApiSecretKey ApiAuthKey ms).
Proof.
  split; cbn; [exact I|]. intros _ h [].
Qed.

Lemma invariant_step
    (decrypt : json -> string -> string -> option string ->
               option ReceivedEncryptedFrameContent)
    (construct : RemootioAction -> string -> string -> string -> EncryptedFrame)
    (w w' : World) :
  invariant w -> step decrypt construct w w' -> invariant w'.
Proof.
  intros [Hc Hw] Hstep. unfold invariant, coherent, watchdog_has_socket in *.
  destruct Hstep as [m w|c w|rs w].
  - destruct m; open_world w; run_all; repeat (break_match; run_all).
    all: cbn in *; split; try assumption; try exact I; try discriminate.
  - destruct c; open_world w; run_all; repeat (break_match; run_all).
    all: cbn in *; split; try assumption; try exact I; try discriminate.
    all: intros Hnone g Hin; try discriminate;
      repeat first [apply In_add_interval in Hin | apply In_remove_timer in Hin];
      try (eapply Hw; eauto; fail).
  - open_world w; run_all; repeat (break_match; run_all).
    all: cbn in *; split; try assumption; try exact I; try discriminate.
Qed.

Lemma reachable_invariant
    (decrypt : json -> string -> string -> option string ->
               option ReceivedEncryptedFrameContent)
    (construct : RemootioAction -> string -> string -> string -> EncryptedFrame)
    (w : World) :
  reachable decrypt construct w -> invariant w.
Proof.
  induction 1 as [ip sk ak ms|w w' _ IH Hstep].
  - apply invariant_new.
  - exact (invariant_step IH Hstep).
Qed.

(** ** Sending without a connection or a session *)

(** C6: in every world the instance can reach, [sendFrame] on a websocket
    that is not open, and [sendEncryptedFrame] or an action helper while the
    session key or [lastActionId] is absent, write no frame, print one
    warning and return without throwing. *)
Theorem no_frame_without_connection_or_session
    (decrypt : json -> string -> string -> option string ->
               option ReceivedEncryptedFrameContent)
    (construct : RemootioAction -> string -> string -> string -> EncryptedFrame)
    (w : World) :
  reachable decrypt construct w ->
  (is_open (this w) = false -> forall f, warns_only (sendFrame f) w)
  /\ (apiSessionKey (this w) = None \/ lastActionId (this w) = None ->
      forall m, needs_session m = true -> warns_only (call construct m) w).
Proof.
  intros Hr. apply reachable_invariant in Hr. destruct Hr as [Hc _].
  unfold coherent, warns_only in *. split.
  - intros Hopen f. open_world w. run_all. rewrite Hopen.
    eexists. reflexivity.
  - intros Habs m Hm. open_world w.
    assert (apiSessionKey0 = None /\ lastActionId0 = None) as [-> ->]
      by (destruct apiSessionKey0, lastActionId0, Habs;
          try discriminate; try contradiction; auto).
    destruct m; try discriminate Hm; run_all;
      repeat break_match; eexists; reflexivity.
Qed.

(** On a fresh instance, never connected, [sendHello]'s frame and
    [sendQuery] only warn. *)
Lemma no_frame_without_connection_or_session_witness :
  let w := new_RemootioDevice "192.168.1.155" "secret" "auth" None in
  warns_only (sendFrame (PlainFrame "HELLO")) w
  /\ warns_only (call construct_stub SendQuery) w.
Proof.
  pose (w := new_RemootioDevice "192.168.1.155" "secret" "auth" None).
  destruct (no_frame_without_connection_or_session
              (reachable_new (decrypts_to (query_response 3)) construct_stub
                 "192.168.1.155" "secret" "auth" None))
    as [Hframe Hsession].
  split.
  - exact (Hframe eq_refl (PlainFrame "HELLO")).
  - exact (Hsession (or_introl eq_refl) SendQuery eq_refl).
Defined.

(** ** The watchdog *)

Lemma live_timer_removed (h : handle) (l : list (handle * timer_kind)) :
  live_timer h (remove_timer h l) = None.
Proof.
  induction l as [|[g k] l IH]; cbn; [reflexivity|].
  destruct (Nat.eqb g h) eqn:Hg; cbn; [assumption|].
  rewrite Hg. assumption.
Qed.

(** Any message that parses disarms the watchdog: the timer is no longer
    live, and the event loop has nothing to run for it. *)
Lemma parsed_message_disarms_watchdog
    (decrypt : json -> string -> string -> option string ->
               option ReceivedEncryptedFrameContent)
    (construct : RemootioAction -> string -> string -> string -> EncryptedFrame)
    (w : World) (frame : json) (h : handle) :
  pingReplyTimeoutHandle (this w) = Some h ->
  let w' := exec (on_message decrypt construct (Parses frame)) w in
  pingReplyTimeoutHandle (this w') = None
  /\ live_timer h (timers w') = None
  /\ exec (fire h) w' = w'.
Proof.
  intros Hh w'. subst w'. open_world w. run_js.
  repeat (break_match; run_js).
  all: try match goal with
           | H : live_timer _ (remove_timer _ _) = Some _ |- _ =>
               rewrite live_timer_removed in H; discriminate H
           end.
  all: try discriminate Hh.
  all: cbn; rewrite ?live_timer_removed; repeat split.
Qed.

(** A sequence runs its second part in the world the first part leaves,
    when the first part returns. *)
Lemma exec_seq (a b : Js unit) (w : World) :
  match a w with
  | Returned _ _ => True
  | Threw _ _ => False
  end ->
  exec (a ;; b) w = exec b (exec a w).
Proof.
  unfold exec, bind. destruct (a w); [reflexivity|contradiction].
Qed.

Lemma probe_sent_world_reachable_with
    (decrypt : json -> string -> string -> option string ->
               option ReceivedEncryptedFrameContent)
    (construct : RemootioAction -> string -> string -> string -> EncryptedFrame) :
  reachable decrypt construct probe_sent_world.
Proof.
  unfold probe_sent_world.
  rewrite exec_seq by exact I.
  rewrite exec_seq by exact I.
  rewrite exec_seq by exact I.
  rewrite exec_seq by exact I.
  apply reachable_step with (2 := step_callback decrypt construct (Fire 0%nat) _).
  apply reachable_step with (2 := step_callback decrypt construct OnOpen _).
  apply reachable_step with (2 := step_transport decrypt construct OPEN _).
  apply reachable_step with (2 := step_call decrypt construct (Connect true 8080) _).
  apply reachable_step with (2 := step_call decrypt construct (On "error") _).
  apply reachable_new.
Qed.

(** The world of the fixture is one the instance reaches. *)
Lemma probe_sent_world_reachable :
  reachable (decrypts_to (query_response 3)) construct_stub probe_sent_world.
Proof. apply probe_sent_world_reachable_with. Qed.

(** C9, as the spec states it, fails on an instance nobody has given a
    listener for ['error']: when its watchdog fires, [emit ('error', ...)]
    throws, so no ['error'] is emitted, [terminate] is not reached and the
    websocket stays as it is. *)
Lemma watchdog_without_error_listener_throws :
  let o := fire 1%nat unheard_probe_world in
  live_timer 1%nat (timers unheard_probe_world) = Some Timeout
  /\ autoReconnect (this unheard_probe_world) = true
  /\ o = Threw (Unhandled (NoPingResponse (Qmake 60000 2)))
            {| this := this unheard_probe_world;
               timers := [(0%nat, Interval)];
               fresh := fresh unheard_probe_world;
               trace := trace unheard_probe_world |}
  /\ ~ In Terminate (trace (world_of o)).
Proof.
  vm_compute. repeat split.
  intros H. repeat (destruct H as [H|H]; try discriminate H). contradiction.
Qed.

(** C9 (amended): when the watchdog of a reachable world fires and
    ['error'] has a listener, ['error'] is emitted and the websocket is
    terminated; with [autoReconnect] on, the close handler that follows
    calls [connect] with the port in use, which opens a websocket to the
    same address and emits ['connecting']. When ['error'] has no listener,
    the callback throws the unhandled error before it reaches [terminate]:
    nothing is emitted and the websocket is not closed. *)
Theorem watchdog_expiry_closes_and_reconnects
    (decrypt : json -> string -> string -> option string ->
               option ReceivedEncryptedFrameContent)
    (construct : RemootioAction -> string -> string -> string -> EncryptedFrame)
    (w : World) (h : handle) :
  reachable decrypt construct w ->
  live_timer h (timers w) = Some Timeout ->
  let w1 := exec (fire h) w in
  let w2 := exec (transport_becomes CLOSED ;; on_close) w1 in
  let u := ("ws://" ++ deviceIp (this w) ++ ":"
            ++ number_toString (port (this w)) ++ "/")%string in
  (has_error_listener (_events (this w)) = true ->
   trace w1 =
     (trace w ++ [Emit (Event.error (NoPingResponse (pingReplyTimeoutXMs (this w))));
                  Terminate])%list
   /\ (autoReconnect (this w) = true ->
       port (this w2) = port (this w)
       /\ websocketClient (this w2) = Some {| url := u; readyState := CONNECTING |}
       /\ trace w2 =
          (trace w1
           ++ match sendPingMessageIntervalHandle (this w) with
              | Some i => [ClearInterval i]
              | None => []
              end
           ++ [NewWebSocket u; Emit Event.connecting; Emit Event.disconnect])%list))
  /\ (has_error_listener (_events (this w)) = false ->
      fire h w =
        Threw (Unhandled (NoPingResponse (pingReplyTimeoutXMs (this w))))
          {| this := this w; timers := remove_timer h (timers w);
             fresh := fresh w; trace := trace w |}).
Proof.
  intros Hr Hlive. apply reachable_invariant in Hr. destruct Hr as [_ Hws].
  unfold watchdog_has_socket in Hws.
  destruct (websocketClient (this w)) as [ws|] eqn:Hclient;
    [|exfalso; exact (Hws eq_refl h (live_timer_In _ _ Hlive))].
  clear Hws. open_world w. run_all. rewrite Hlive. run_all.
  split; intros ->; run_all; [|reflexivity].
  split; [flatten_trace; reflexivity|].
  intros ->. destruct sendPingMessageIntervalHandle0; run_all;
    destruct (port0 =? 0); run_all; cbn; flatten_trace; repeat split.
Qed.

(** The watchdog armed by the first probe fires on an instance that
    listens to ['error'] and reconnects: ['error'], [terminate], and after
    the close a new websocket to the same address. *)
Lemma watchdog_expiry_closes_and_reconnects_witness :
  let w1 := exec (fire 1%nat) probe_sent_world in
  let w2 := exec (transport_becomes CLOSED ;; on_close) w1 in
  trace w1 =
    (trace probe_sent_world
     ++ [Emit (Event.error (NoPingResponse (Qmake 60000 2))); Terminate])%list
  /\ port (this w2) = 8080
  /\ websocketClient (this w2)
     = Some {| url := "ws://192.168.1.155:8080/"; readyState := CONNECTING |}
  /\ trace w2 =
     (trace w1
      ++ [ClearInterval 0%nat]
      ++ [NewWebSocket "ws://192.168.1.155:8080/"; Emit Event.connecting;
          Emit Event.disconnect])%list.
Proof.
  destruct (@watchdog_expiry_closes_and_reconnects
              (decrypts_to (query_response 3)) construct_stub
              probe_sent_world 1%nat probe_sent_world_reachable eq_refl)
    as [Hheard _].
  destruct (Hheard eq_refl) as [Hfire Hclose].
  destruct (Hclose eq_refl) as (Hport & Hsocket & Htrace).
  split; [exact Hfire|]. split; [exact Hport|]. split; [exact Hsocket|].
  exact Htrace.
Defined.

(** ** Malformed messages *)



(** ** The readable property [isAuthenticated] *)

(** C10: [isAuthenticated] is true exactly when the websocket is open and a
    session key is stored. So it is true as soon as the message handler has
    processed a challenge on an open websocket, while the handshake flag is
    still set and no ['authenticated'] event has been emitted. *)
Theorem isAuthenticated_once_key_installed
    (decrypt : json -> string -> string -> option string ->
               option ReceivedEncryptedFrameContent)
    (construct : RemootioAction -> string -> string -> string -> EncryptedFrame)
    (w : World) (frame : json) (p : ReceivedEncryptedFrameContent)
    (c : Challenge) :
  is_open (this w) = true ->
  truthy frame && type_is frame "ENCRYPTED" = true ->
  decrypt frame (apiSecretKey (this w)) (apiAuthKey (this w))
    (apiSessionKey (this w)) = Some p ->
  challenge p = Some c ->
  response p = None ->
  let w' := exec (on_message decrypt construct (Parses frame)) w in
  (forall d,
     isAuthenticated d = true <->
     (exists ws, websocketClient d = Some ws /\ readyState ws = OPEN)
     /\ (exists key, apiSessionKey d = Some key))
  /\ isAuthenticated (this w') = true
  /\ apiSessionKey (this w') = Some (sessionKey c)
  /\ waitingForAuthenticationQueryActionResponse (this w') = Some true
  /\ exists evs,
       trace w' = (trace w ++ evs)%list
       /\ ~ In (Emit Event.authenticated) evs.
Proof.
  intros Hopen Henc Hdec Hch Hresp w'. subst w'. split.
  - intros d. unfold isAuthenticated, is_open.
    destruct (websocketClient d) as [ws|].
    + destruct (readyState ws) eqn:Hrs, (apiSessionKey d); cbn; split;
        try discriminate; try (intros [(? & [= <-] & ?) (? & ?)]; congruence).
      intros _. split; eauto.
    + split; [discriminate|]. intros [(? & ? & ?) _]. discriminate.
  - unfold isAuthenticated. open_world w. run_js.
    destruct pingReplyTimeoutHandle0.
    all: rewrite (encrypted_frame_test _ _ Henc), Henc, Hdec, Hch, Hresp.
    all: destruct websocketClient0 as [ws|]; [|discriminate Hopen].
    all: cbv beta iota in Hopen |- *; rewrite Hopen; cbv beta iota.
    all: rewrite Hopen; flatten_trace.
    all: repeat split; eexists; (split; [reflexivity|]).
    all: cbn; intros H; repeat (destruct H as [H|H]; try discriminate);
      contradiction.
Qed.

(** A challenge on an open websocket: [isAuthenticated] is true at once. *)
Lemma isAuthenticated_once_key_installed_witness :
  isAuthenticated
    (this (exec (on_message (decrypts_to (challenge_payload "fresh" 5))
                   construct_stub (Parses encrypted_frame))
             (session_world 0 None true))) = true.
Proof.
  exact (proj1 (proj2 (isAuthenticated_once_key_installed
                         (decrypts_to (challenge_payload "fresh" 5))
                         construct_stub (session_world 0 None true)
                         encrypted_frame
                         (p := challenge_payload "fresh" 5)
                         eq_refl eq_refl eq_refl eq_refl eq_refl))).
Defined.

(** * Further properties of the client *)

(** ** The input check of the constructor *)

Lemma hex_run_completes (mid post : string) (run : nat) :
  all_hex mid = true -> (run < 64)%nat ->
  (64 <= String.length mid + run)%nat ->
  hexstringRe_test_from run (mid ++ post) = true.
Proof.
  revert run. induction mid as [|c mid IH]; intros run Hhex Hrun Hlen.
  - cbn in Hlen. lia.
  - cbn [all_hex] in Hhex. apply andb_prop in Hhex. destruct Hhex as [Hc Hmid].
    cbn [append hexstringRe_test_from]. rewrite Hc.
    destruct (Nat.eqb (S run) 64) eqn:Hfull; [reflexivity|].
    apply Nat.eqb_neq in Hfull. apply IH; [assumption|lia|].
    cbn [String.length] in Hlen. lia.
Qed.

Lemma hex_run_found (pre mid post : string) (run : nat) :
  all_hex mid = true -> String.length mid = 64%nat -> (run < 64)%nat ->
  hexstringRe_test_from run (pre ++ mid ++ post) = true.
Proof.
  intros Hhex Hlen. revert run. induction pre as [|c pre IH]; intros run Hrun.
  - cbn [append]. apply hex_run_completes; [assumption|assumption|lia].
  - cbn [append hexstringRe_test_from]. destruct (is_hex c).
    + destruct (Nat.eqb (S run) 64) eqn:Hfull; [reflexivity|].
      apply Nat.eqb_neq in Hfull. apply IH. lia.
    + apply IH. lia.
Qed.

Lemma hex_run_needed (s : string) (run : nat) :
  (run < 64)%nat ->
  hexstringRe_test_from run s = true ->
  (exists mid post,
      s = (mid ++ post)%string /\ all_hex mid = true
      /\ (String.length mid + run = 64)%nat)
  \/ (exists pre mid post,
         s = (pre ++ mid ++ post)%string /\ all_hex mid = true
         /\ String.length mid = 64%nat).
Proof.
  revert run. induction s as [|c s IH]; intros run Hrun Htest.
  - discriminate Htest.
  - cbn [hexstringRe_test_from] in Htest. destruct (is_hex c) eqn:Hc.
    + destruct (Nat.eqb (S run) 64) eqn:Hfull.
      * apply Nat.eqb_eq in Hfull. left.
        exists (String c EmptyString), s. cbn. rewrite Hc. repeat split. lia.
      * apply Nat.eqb_neq in Hfull.
        destruct (IH (S run) ltac:(lia) Htest)
          as [(mid & post & -> & Hhex & Hlen)|(pre & mid & post & -> & Hhex & Hlen)].
        -- left. exists (String c mid), post. cbn. rewrite Hc, Hhex.
           repeat split. lia.
        -- right. exists (String c pre), mid, post. repeat split; assumption.
    + destruct (IH 0%nat ltac:(lia) Htest)
        as [(mid & post & -> & Hhex & Hlen)|(pre & mid & post & -> & Hhex & Hlen)].
      * right. exists (String c EmptyString), mid, post.
        repeat split; [assumption|lia].
      * right. exists (String c pre), mid, post. repeat split; assumption.
Qed.

(** X1: the input check of the constructor accepts a key exactly when it
    holds 64 hexadecimal digits in a row somewhere: the expression is not
    anchored, so text before and after the digits passes too. *)
Theorem hexstringRe_accepts_any_run_of_64_digits (s : string) :
  hexstringRe_test s = true <->
  exists pre mid post,
    s = (pre ++ mid ++ post)%string
    /\ all_hex mid = true
    /\ String.length mid = 64%nat.
Proof.
  unfold hexstringRe_test. split.
  - intros Htest.
    destruct (@hex_run_needed s 0%nat ltac:(lia) Htest)
      as [(mid & post & -> & Hhex & Hlen)|H]; [|exact H].
    exists EmptyString, mid, post. repeat split; [assumption|lia].
  - intros (pre & mid & post & -> & Hhex & Hlen).
    apply hex_run_found; [assumption|assumption|lia].
Qed.

(** ** Connecting and disconnecting *)

(** X2: [connect] only ever switches [autoReconnect] on. Once it is on, no
    method but [disconnect] and no callback switches it off; in particular
    [connect (false, port)] leaves it on. *)
Theorem autoReconnect_stays_on
    (decrypt : json -> string -> string -> option string ->
               option ReceivedEncryptedFrameContent)
    (construct : RemootioAction -> string -> string -> string -> EncryptedFrame)
    (w : World) :
  autoReconnect (this w) = true ->
  (forall m, m <> Disconnect ->
             autoReconnect (this (exec (call construct m) w)) = true)
  /\ (forall c, autoReconnect
                  (this (exec (run_callback decrypt construct c) w)) = true).
Proof.
  intros Hon. split.
  - intros m Hm. destruct m; try contradiction; open_world w; run_all;
      repeat (break_match; run_all); reflexivity.
  - intros c. destruct c; open_world w; run_all;
      repeat (break_match; run_all); reflexivity.
Qed.

(** [connect (false, 0)] on a reconnecting instance: it still reconnects. *)
Lemma autoReconnect_stays_on_witness :
  autoReconnect
    (this (exec (call construct_stub (Connect false 0))
             (session_world 6 (Some false) true))) = true.
Proof.
  exact (proj1 (@autoReconnect_stays_on (decrypts_to (query_response 3))
                  construct_stub (session_world 6 (Some false) true) eq_refl)
           (Connect false 0) ltac:(discriminate)).
Defined.

(** X3: [disconnect] on an instance that has a websocket, followed by the
    close event of the transport, does not reconnect: the trace gains the
    call of [close], the clearing of the ping interval and ['disconnect'],
    and the session data stay as they were. On an instance that never
    connected, [disconnect] does nothing. *)
Theorem disconnect_then_close_does_not_reconnect (w : World) :
  match websocketClient (this w) with
  | None => disconnect w = Returned tt w
  | Some _ =>
      let w' := exec (disconnect ;; transport_becomes CLOSED ;; on_close) w in
      trace w' =
        (trace w ++ [Close]
         ++ match sendPingMessageIntervalHandle (this w) with
            | Some i => [ClearInterval i]
            | None => []
            end
         ++ [Emit Event.disconnect])%list
      /\ autoReconnect (this w') = false
      /\ sendPingMessageIntervalHandle (this w') = None
      /\ same_session (this w) (this w')
  end.
Proof.
  unfold same_session. open_world w. run_all.
  destruct websocketClient0; [|reflexivity].
  destruct sendPingMessageIntervalHandle0; cbn; flatten_trace; repeat split.
Qed.

(** X4: [connect (autoReconnect, port)] keeps the port in use when [port]
    is 0, opens the websocket at [ws://deviceIp:port/] and emits
    ['connecting']; right after it the instance reports neither connected
    nor authenticated and has no last action id. *)
Theorem connect_opens_socket_and_resets_getters (w : World) (a : bool) (p : Z) :
  let w' := exec (connect a p) w in
  let port' := if p =? 0 then port (this w) else p in
  let u := ("ws://" ++ deviceIp (this w) ++ ":" ++ number_toString port' ++ "/")%string in
  port (this w') = port'
  /\ websocketClient (this w') = Some {| url := u; readyState := CONNECTING |}
  /\ trace w' = (trace w ++ [NewWebSocket u; Emit Event.connecting])%list
  /\ isConnected (this w') = false
  /\ isAuthenticated (this w') = false
  /\ theLastActionId (this w') = None
  /\ timers w' = timers w.
Proof.
  open_world w. run_all. destruct a, (p =? 0); cbn; flatten_trace; repeat split.
Qed.

(** ** The handshake and the action ids *)

(** X5: a challenge installs its session key and its initial action id and
    at once sends the QUERY action whose id follows the initial one,
    encrypted under the new session key; on a websocket that is not open
    the key and the id are installed all the same and the QUERY is replaced
    by a warning. *)
Theorem challenge_sends_query_under_new_session_key
    (decrypt : json -> string -> string -> option string ->
               option ReceivedEncryptedFrameContent)
    (construct : RemootioAction -> string -> string -> string -> EncryptedFrame)
    (w : World) (frame : json) (p : ReceivedEncryptedFrameContent)
    (c : Challenge) :
  truthy frame && type_is frame "ENCRYPTED" = true ->
  decrypt frame (apiSecretKey (this w)) (apiAuthKey (this w))
    (apiSessionKey (this w)) = Some p ->
  challenge p = Some c ->
  response p = None ->
  let w' := exec (on_message decrypt construct (Parses frame)) w in
  let query := {| action_type := "QUERY"; action_duration := None;
                  action_id := next_action_id (initialActionId c) |} in
  let sent := Encrypted (construct query (apiSecretKey (this w))
                           (apiAuthKey (this w)) (sessionKey c)) in
  apiSessionKey (this w') = Some (sessionKey c)
  /\ lastActionId (this w') = Some (initialActionId c)
  /\ trace w' =
     (trace w ++ disarm (this w)
      ++ [Emit (Event.incomingmessage frame (Some p))]
      ++ (if is_open (this w)
          then [Send sent; Emit (Event.outgoingmessage sent (Some query))]
          else [Warn "The websocket client is not connected"]))%list.
Proof.
  intros Henc Hdec Hch Hresp. unfold disarm. open_world w. run_js.
  destruct pingReplyTimeoutHandle0; run_js.
  all: rewrite (encrypted_frame_test _ _ Henc), Henc, Hdec, Hch, Hresp; run_js.
  all: destruct websocketClient0 as [ws|];
    [destruct (ReadyState_eqb (readyState ws) OPEN)|].
  all: cbn; flatten_trace; repeat split.
Qed.

(** A challenge with initial id 5: the QUERY that follows has id 6. *)
Lemma challenge_sends_query_under_new_session_key_witness :
  lastActionId
    (this (exec (on_message (decrypts_to (challenge_payload "fresh" 5))
                   construct_stub (Parses encrypted_frame))
             (session_world 0 None true))) = Some 5.
Proof.
  exact (proj1 (proj2 (@challenge_sends_query_under_new_session_key
                         (decrypts_to (challenge_payload "fresh" 5))
                         construct_stub (session_world 0 None true)
                         encrypted_frame (challenge_payload "fresh" 5)
                         {| sessionKey := "fresh"; initialActionId := 5 |}
                         eq_refl eq_refl eq_refl eq_refl))).
Defined.

(** X6: sending an action does not advance [lastActionId]: two actions
    sent one after the other, with no response in between, leave the
    instance as it was and carry the same id, the one after the counter. *)
Theorem actions_do_not_advance_counter
    (construct : RemootioAction -> string -> string -> string -> EncryptedFrame)
    (w : World) (key : string) (last : Z)
    (type1 type2 : string) (duration1 duration2 : option Z) :
  is_open (this w) = true ->
  apiSessionKey (this w) = Some key ->
  lastActionId (this w) = Some last ->
  let a1 := {| action_type := type1; action_duration := duration1;
               action_id := next_action_id last |} in
  let a2 := {| action_type := type2; action_duration := duration2;
               action_id := next_action_id last |} in
  let f1 := Encrypted (construct a1 (apiSecretKey (this w)) (apiAuthKey (this w)) key) in
  let f2 := Encrypted (construct a2 (apiSecretKey (this w)) (apiAuthKey (this w)) key) in
  (send_action construct type1 duration1 ;; send_action construct type2 duration2) w
  = Returned tt
      {| this := this w; timers := timers w; fresh := fresh w;
         trace := trace w
                  ++ [Send f1; Emit (Event.outgoingmessage f1 (Some a1));
                      Send f2; Emit (Event.outgoingmessage f2 (Some a2))] |}.
Proof.
  intros Hopen Hkey Hlast. open_world w. run_js.
  destruct websocketClient0 as [ws|]; [|discriminate Hopen].
  cbv beta iota in Hopen |- *. repeat (rewrite Hopen; cbv beta iota).
  flatten_trace. reflexivity.
Qed.

(** TRIGGER, then OPEN held for two minutes, with the counter at 6: both
    carry id 7 and the counter is still at 6. *)
Lemma actions_do_not_advance_counter_witness :
  lastActionId
    (this (exec (sendTrigger construct_stub ;;
                 holdOpenOutputActive construct_stub 2)
             (session_world 6 (Some false) true))) = Some 6.
Proof.
  exact (f_equal (fun o => lastActionId (this (world_of o)))
           (@actions_do_not_advance_counter construct_stub
              (session_world 6 (Some false) true) "session" 6
              "TRIGGER" "OPEN" None (Some 2) eq_refl eq_refl eq_refl)).
Defined.

(** X7: when the device answers an action with the id the action carried,
    the counter advances by one as long as it is below 0x7FFFFFFE. At
    0x7FFFFFFE the action carries id 0, which the response rule does not
    take for newer: the counter stays where it is. *)
Theorem echoed_action_id_advances_counter
    (decrypt : json -> string -> string -> option string ->
               option ReceivedEncryptedFrameContent)
    (construct : RemootioAction -> string -> string -> string -> EncryptedFrame)
    (w : World) (frame : json) (p : ReceivedEncryptedFrameContent)
    (r : Response) (last : Z) :
  truthy frame && type_is frame "ENCRYPTED" = true ->
  decrypt frame (apiSecretKey (this w)) (apiAuthKey (this w))
    (apiSessionKey (this w)) = Some p ->
  challenge p = None ->
  response p = Some r ->
  response_id r = Some (next_action_id last) ->
  lastActionId (this w) = Some last ->
  0 <= last ->
  lastActionId (this (exec (on_message decrypt construct (Parses frame)) w))
  = Some (if last <? 0x7FFFFFFE then last + 1 else last).
Proof.
  intros Henc Hdec Hch Hresp Hid Hc Hpos.
  open_world w. run_js.
  destruct pingReplyTimeoutHandle0.
  all: rewrite (encrypted_frame_test _ _ Henc), Henc, Hdec, Hch, Hresp, Hid.
  all: rewrite (next_action_id_mod Hpos); unfold modulus.
  all: destruct (last <? 0x7FFFFFFE) eqn:Hlow;
    [apply Z.ltb_lt in Hlow | apply Z.ltb_ge in Hlow].
  all: try (rewrite Z.mod_small by lia;
            replace (last <? last + 1) with true by (symmetry; apply Z.ltb_lt; lia);
            cbn [orb]).
  all: try (assert (Hm := Z.mod_pos_bound (last + 1) 2147483647 ltac:(lia));
            replace (last <? (last + 1) mod 2147483647) with false
              by (symmetry; apply Z.ltb_ge; lia);
            destruct (Z.eq_dec last 2147483647) as [->|Hne];
            [|replace (last =? 2147483647) with false
                by (symmetry; apply Z.eqb_neq; exact Hne);
              rewrite andb_false_r]; cbn [orb andb]).
  all: destruct (String.eqb (response_type r) "QUERY");
    destruct waitingForAuthenticationQueryActionResponse0 as [[|]|];
    reflexivity.
Qed.

(** The counter at 0x7FFFFFFE: the action carries id 0 and its echo leaves
    the counter at 0x7FFFFFFE. *)
Lemma echoed_action_id_advances_counter_witness :
  lastActionId
    (this (exec (on_message (decrypts_to (query_response 0)) construct_stub
                   (Parses encrypted_frame))
             (session_world 0x7FFFFFFE (Some false) true))) = Some 0x7FFFFFFE.
Proof.
  exact (@echoed_action_id_advances_counter
           (decrypts_to (query_response 0)) construct_stub
           (session_world 0x7FFFFFFE (Some false) true) encrypted_frame
           (query_response 0)
           {| response_id := Some 0; response_type := "QUERY" |}
           0x7FFFFFFE eq_refl eq_refl eq_refl eq_refl eq_refl eq_refl
           ltac:(discriminate)).
Defined.

(** X8: the id an action helper gives its action lies in 0 .. 0x7FFFFFFE
    whenever the counter is not negative: 0x7FFFFFFF itself is never sent. *)
Theorem action_ids_stay_below_modulus
    (construct : RemootioAction -> string -> string -> string -> EncryptedFrame)
    (w : World) (last : Z) (type : string) (duration : option Z) :
  lastActionId (this w) = Some last ->
  0 <= last ->
  exists evs,
    trace (exec (send_action construct type duration) w) = (trace w ++ evs)%list
    /\ forall f a,
         In (Emit (Event.outgoingmessage f (Some a))) evs ->
         0 <= action_id a < 0x7FFFFFFF.
Proof.
  intros Hlast Hpos.
  assert (Hrange : 0 <= next_action_id last < 0x7FFFFFFF).
  { rewrite (next_action_id_mod Hpos). apply Z.mod_pos_bound.
    unfold modulus. lia. }
  open_world w. run_js. repeat (break_match; run_js).
  all: flatten_trace; eexists; (split; [reflexivity|]).
  all: intros f a Hin; cbn [In] in Hin.
  all: repeat (destruct Hin as [Hin|Hin]; try discriminate Hin);
    try contradiction.
  all: injection Hin as _ <-; exact Hrange.
Qed.

(** With the counter at 0x7FFFFFFE the RESTART action goes out with id 0. *)
Lemma action_ids_stay_below_modulus_witness :
  exists evs,
    trace (exec (sendRestart construct_stub)
             (session_world 0x7FFFFFFE (Some false) true)) = ([] ++ evs)%list
    /\ forall f a,
         In (Emit (Event.outgoingmessage f (Some a))) evs ->
         0 <= action_id a < 0x7FFFFFFF.
Proof.
  exact (@action_ids_stay_below_modulus construct_stub
           (session_world 0x7FFFFFFE (Some false) true) 0x7FFFFFFE
           "RESTART" None eq_refl ltac:(discriminate)).
Defined.

(** X9: in a world the instance can reach, [isAuthenticated] is enough
    for the action helpers: the counter is defined, and the helper writes
    one ENCRYPTED frame with the next id and emits ['outgoingmessage'],
    without a warning. *)
Theorem authenticated_instance_sends_actions
    (decrypt : json -> string -> string -> option string ->
               option ReceivedEncryptedFrameContent)
    (construct : RemootioAction -> string -> string -> string -> EncryptedFrame)
    (w : World) (type : string) (duration : option Z) :
  reachable decrypt construct w ->
  isAuthenticated (this w) = true ->
  exists key last,
    apiSessionKey (this w) = Some key
    /\ theLastActionId (this w) = Some last
    /\ let a := {| action_type := type; action_duration := duration;
                   action_id := next_action_id last |} in
       let f := Encrypted (construct a (apiSecretKey (this w))
                             (apiAuthKey (this w)) key) in
       send_action construct type duration w
       = Returned tt
           {| this := this w; timers := timers w; fresh := fresh w;
              trace := trace w ++ [Send f; Emit (Event.outgoingmessage f (Some a))] |}.
Proof.
  intros Hr Hauth. apply reachable_invariant in Hr. destruct Hr as [Hc _].
  unfold coherent, isAuthenticated, theLastActionId in *.
  open_world w. unfold is_open in Hauth. cbn in Hauth.
  destruct websocketClient0 as [ws|]; [|discriminate Hauth].
  destruct (ReadyState_eqb (readyState ws) OPEN) eqn:Hopen; [|discriminate Hauth].
  destruct apiSessionKey0 as [key|]; [|discriminate Hauth].
  destruct lastActionId0 as [last|]; [|contradiction].
  exists key, last. repeat split. run_js. rewrite Hopen. flatten_trace.
  reflexivity.
Qed.

(** ** What the turns of the event loop keep *)

Lemma step_same_configuration
    (decrypt : json -> string -> string -> option string ->
               option ReceivedEncryptedFrameContent)
    (construct : RemootioAction -> string -> string -> string -> EncryptedFrame)
    (w w' : World) :
  step decrypt construct w w' -> same_configuration (this w) (this w').
Proof.
  intros Hstep. unfold same_configuration.
  destruct Hstep as [m w|c w|rs w].
  - destruct m; open_world w; run_all; repeat (break_match; run_all);
      repeat split.
  - destruct c; open_world w; run_all; repeat (break_match; run_all);
      repeat split.
  - open_world w; run_all; repeat (break_match; run_all); repeat split.
Qed.

(** X10: the credentials, the address of the device and the two periods of
    the keepalive are those the constructor stored: no method, no callback
    and no move of the transport changes them, however many follow each
    other. *)
Theorem configuration_is_immutable
    (decrypt : json -> string -> string -> option string ->
               option ReceivedEncryptedFrameContent)
    (construct : RemootioAction -> string -> string -> string -> EncryptedFrame)
    (w w' : World) :
  steps decrypt construct w w' -> same_configuration (this w) (this w').
Proof.
  induction 1 as [w|w w' w'' _ IH Hstep].
  - repeat split.
  - apply step_same_configuration in Hstep.
    unfold same_configuration in *.
    destruct IH as (? & ? & ? & ? & ?), Hstep as (? & ? & ? & ? & ?).
    repeat split; congruence.
Qed.

(** X11: in every world the instance can reach, the period of the ping is
    not 0 (a missing or zero argument of the constructor gives 60000) and
    the reply timeout is half of it. *)
Theorem keepalive_periods_of_reachable_worlds
    (decrypt : json -> string -> string -> option string ->
               option ReceivedEncryptedFrameContent)
    (construct : RemootioAction -> string -> string -> string -> EncryptedFrame)
    (w : World) :
  reachable decrypt construct w ->
  sendPingMessageEveryXMs (this w) <> 0
  /\ pingReplyTimeoutXMs (this w) = Qmake (sendPingMessageEveryXMs (this w)) 2.
Proof.
  induction 1 as [ip sk ak ms|w w' _ IH Hstep].
  - cbn. destruct ms as [ms|]; [destruct (Z.eqb_spec ms 0)|];
      split; try reflexivity; try assumption; discriminate.
  - apply step_same_configuration in Hstep.
    destruct Hstep as (_ & _ & _ & Hevery & Htimeout).
    rewrite Hevery, Htimeout. exact IH.
Qed.

Lemma challenged_world_reachable :
  reachable (decrypts_to (challenge_payload "fresh" 5)) construct_stub
    challenged_world.
Proof.
  unfold challenged_world.
  apply reachable_step
    with (2 := step_callback (decrypts_to (challenge_payload "fresh" 5))
                 construct_stub (OnMessage (Parses encrypted_frame)) _).
  apply probe_sent_world_reachable_with.
Qed.

(** After the challenge the instance reports authenticated, and OPEN goes
    out as one frame. *)
Lemma authenticated_instance_sends_actions_witness :
  exists key last,
    apiSessionKey (this challenged_world) = Some key
    /\ theLastActionId (this challenged_world) = Some last
    /\ let a := {| action_type := "OPEN"; action_duration := None;
                   action_id := next_action_id last |} in
       let f := Encrypted (construct_stub a (apiSecretKey (this challenged_world))
                             (apiAuthKey (this challenged_world)) key) in
       send_action construct_stub "OPEN" None challenged_world
       = Returned tt
           {| this := this challenged_world; timers := timers challenged_world;
              fresh := fresh challenged_world;
              trace := trace challenged_world
                       ++ [Send f; Emit (Event.outgoingmessage f (Some a))] |}.
Proof.
  exact (@authenticated_instance_sends_actions
           (decrypts_to (challenge_payload "fresh" 5)) construct_stub
           challenged_world "OPEN" None challenged_world_reachable eq_refl).
Defined.

(** [connect (true, 8080)] on a fresh instance keeps its configuration. *)
Lemma configuration_is_immutable_witness :
  let w := new_RemootioDevice "192.168.1.155" "secret" "auth" (Some 10000) in
  same_configuration (this w)
    (this (exec (call construct_stub (Connect true 8080)) w)).
Proof.
  exact (@configuration_is_immutable (decrypts_to (query_response 3))
           construct_stub _ _
           (steps_more
              (steps_none _ _
                 (new_RemootioDevice "192.168.1.155" "secret" "auth" (Some 10000)))
              (step_call _ construct_stub (Connect true 8080) _))).
Defined.

(** The instance built without a period pings every 60000 ms and waits
    30000 ms for a reply. *)
Lemma keepalive_periods_of_reachable_worlds_witness :
  sendPingMessageEveryXMs (this probe_sent_world) <> 0
  /\ pingReplyTimeoutXMs (this probe_sent_world)
     = Qmake (sendPingMessageEveryXMs (this probe_sent_world)) 2.
Proof.
  exact (@keepalive_periods_of_reachable_worlds
           (decrypts_to (query_response 3)) construct_stub
           probe_sent_world probe_sent_world_reachable).
Defined.

(** ** The keepalive timers *)

(** X12: a message disarms the armed watchdog exactly when its text parses
    as JSON, whatever the frame is: the handle is forgotten, the timer is
    cleared and is no longer live. A text that does not parse leaves the
    watchdog armed. *)
Theorem watchdog_disarmed_by_parsed_messages_only
    (decrypt : json -> string -> string -> option string ->
               option ReceivedEncryptedFrameContent)
    (construct : RemootioAction -> string -> string -> string -> EncryptedFrame)
    (w : World) (data : message_text) (h : handle) :
  pingReplyTimeoutHandle (this w) = Some h ->
  let w' := exec (on_message decrypt construct data) w in
  match data with
  | Unparseable _ =>
      pingReplyTimeoutHandle (this w') = Some h /\ timers w' = timers w
  | Parses _ =>
      pingReplyTimeoutHandle (this w') = None
      /\ live_timer h (timers w') = None
      /\ timers w' = remove_timer h (timers w)
  end.
Proof.
  intros Hh. open_world w.
  destruct data as [text|frame]; cbv zeta; run_js;
    repeat (break_match; run_js).
  all: try discriminate Hh.
  all: cbn; rewrite ?live_timer_removed; repeat split.
Qed.

(** The probe is out and the device answers with a challenge: the
    watchdog, timer 1, is spent. *)
Lemma watchdog_disarmed_by_parsed_messages_only_witness :
  pingReplyTimeoutHandle (this challenged_world) = None
  /\ live_timer 1%nat (timers challenged_world) = None
  /\ timers challenged_world = remove_timer 1%nat (timers probe_sent_world).
Proof.
  exact (@watchdog_disarmed_by_parsed_messages_only
           (decrypts_to (challenge_payload "fresh" 5)) construct_stub
           probe_sent_world (Parses encrypted_frame) 1%nat eq_refl).
Defined.

Lemma step_handles_given_out
    (decrypt : json -> string -> string -> option string ->
               option ReceivedEncryptedFrameContent)
    (construct : RemootioAction -> string -> string -> string -> EncryptedFrame)
    (w w' : World) :
  handles_given_out w -> step decrypt construct w w' -> handles_given_out w'.
Proof.
  intros Hw Hstep. unfold handles_given_out in *.
  assert (Hfinish :
    forall (l : list (handle * timer_kind)) (f : handle),
      (forall t, In t l -> (fst t < f)%nat) ->
      forall k t, In t (l ++ [(f, k)]) -> (fst t < S f)%nat).
  { intros l f Hl k t Hin. apply in_app_or in Hin.
    destruct Hin as [Hin|[<-|[]]]; [apply Hl in Hin; lia|cbn; lia]. }
  destruct Hstep as [m w|c w|rs w].
  - destruct m; open_world w; run_all; repeat (break_match; run_all).
    all: cbn in *; assumption.
  - destruct c; open_world w; run_all; repeat (break_match; run_all).
    all: cbn in *; try assumption.
    all: try (intros tm Hin; apply In_remove_timer in Hin; auto; fail).
    all: try (eapply Hfinish; eassumption).
    all: intros tm Hin; repeat apply In_remove_timer in Hin; auto.
  - open_world w; run_all; repeat (break_match; run_all).
    all: cbn in *; assumption.
Qed.

Lemma reachable_handles_given_out
    (decrypt : json -> string -> string -> option string ->
               option ReceivedEncryptedFrameContent)
    (construct : RemootioAction -> string -> string -> string -> EncryptedFrame)
    (w : World) :
  reachable decrypt construct w -> handles_given_out w.
Proof.
  induction 1 as [ip sk ak ms|w w' _ IH Hstep].
  - intros t [].
  - exact (step_handles_given_out IH Hstep).
Qed.

Lemma remove_given_out_handle (l : list (handle * timer_kind)) (f : handle)
    (k : timer_kind) :
  (forall t, In t l -> (fst t < f)%nat) ->
  remove_timer f (l ++ [(f, k)]) = l.
Proof.
  intros Hl. unfold remove_timer. rewrite filter_app. cbn.
  rewrite Nat.eqb_refl. cbn. rewrite app_nil_r.
  induction l as [|[g k'] l IH]; [reflexivity|]. cbn.
  assert (Hg : (g < f)%nat) by (apply (Hl (g, k')); now left).
  destruct (Nat.eqb_spec g f) as [->|_]; [lia|].
  cbn. f_equal. apply IH. intros t' Hin. apply Hl. now right.
Qed.

(** X13: the ping interval the open handler starts is the one the close
    handler clears: from a reachable world, when the ['close'] event of the
    websocket follows its ['open'] event directly, with no tick of the
    interval and no other callback in between, the live timers are those
    from before the open and no interval handle is kept. (A tick in between
    arms a watchdog, which the close handler leaves live: see C4.) *)
Theorem open_then_close_leaves_no_ping_timer
    (decrypt : json -> string -> string -> option string ->
               option ReceivedEncryptedFrameContent)
    (construct : RemootioAction -> string -> string -> string -> EncryptedFrame)
    (w : World) :
  reachable decrypt construct w ->
  let w' := exec (on_open ;; transport_becomes CLOSED ;; on_close) w in
  timers w' = timers w
  /\ sendPingMessageIntervalHandle (this w') = None.
Proof.
  intros Hr. apply reachable_handles_given_out in Hr.
  unfold handles_given_out in Hr. open_world w. run_all.
  cbn [timers fresh] in Hr.
  destruct websocketClient0, autoReconnect0; run_all;
    try destruct (port0 =? 0); cbn;
    (split; [apply remove_given_out_handle; exact Hr|reflexivity]).
Qed.

(** A websocket that opens and closes right after [connect]: no timer is
    left. *)
Lemma open_then_close_leaves_no_ping_timer_witness :
  let w := exec (call construct_stub (Connect false 8080))
             (new_RemootioDevice "192.168.1.155" "secret" "auth" None) in
  timers (exec (on_open ;; transport_becomes CLOSED ;; on_close) w) = timers w
  /\ sendPingMessageIntervalHandle
       (this (exec (on_open ;; transport_becomes CLOSED ;; on_close) w)) = None.
Proof.
  exact (@open_then_close_leaves_no_ping_timer
           (decrypts_to (query_response 3)) construct_stub _
           (reachable_step
              (reachable_new (decrypts_to (query_response 3)) construct_stub
                 "192.168.1.155" "secret" "auth" None)
              (step_call _ construct_stub (Connect false 8080) _))).
Defined.

(** ** What the message handler emits and what it leaves alone *)

(** X14: for payloads of the shape lib/frames declares, the message
    handler raises ['error'] exactly when the text is not JSON, when the
    comparison of the frame's [type] with ['ENCRYPTED'] throws, or when an
    ENCRYPTED frame does not decrypt: it emits ['error'] when ['error'] has
    a listener and throws out of the handler when it has none. A payload of
    that shape never raises ['error'], and neither does JSON whose [type]
    is not equal to ['ENCRYPTED']. *)
Theorem error_raised_iff_unparseable_or_undecryptable
    (decrypt : json -> string -> string -> option string ->
               option ReceivedEncryptedFrameContent)
    (construct : RemootioAction -> string -> string -> string -> EncryptedFrame)
    (w : World) (data : message_text) :
  let o := on_message decrypt construct data w in
  let heard := has_error_listener (_events (this w)) in
  let faulty :=
    match data with
    | Unparseable _ => True
    | Parses frame =>
        truthy frame && type_throws frame "ENCRYPTED" = true
        \/ (truthy frame && type_throws frame "ENCRYPTED" = false
            /\ truthy frame && type_is frame "ENCRYPTED" = true
            /\ decrypt frame (apiSecretKey (this w)) (apiAuthKey (this w))
                 (apiSessionKey (this w)) = None)
    end in
  exists evs,
    trace (world_of o) = (trace w ++ evs)%list
    /\ ((exists e, In (Emit (Event.error e)) evs) <-> heard = true /\ faulty)
    /\ ((exists e w', o = Threw e w') <-> heard = false /\ faulty).
Proof.
  open_world w.
  destruct data as [text|frame]; cbv zeta; run_js;
    repeat (break_match; run_js).
  all: split_trace; cbn [In]; (split; split).
  all: try (intros [er Hin]; exfalso;
            repeat (destruct Hin as [Hin|Hin]; try discriminate Hin);
            contradiction).
  all: try (intros [er Hin];
            repeat (destruct Hin as [Hin|Hin]; try discriminate Hin);
            try contradiction;
            split; [reflexivity|];
            first [exact I | left; reflexivity
                  | right; repeat split; reflexivity]).
  all: try (intros (er & w'' & Hthrown); discriminate Hthrown).
  all: try (intros (er & w'' & Hthrown);
            split; [first [reflexivity | assumption]|];
            first [exact I | left; reflexivity
                  | right; repeat split; reflexivity]).
  all: try (intros [Hh Hc]; try discriminate Hh; try congruence;
            destruct Hc as [Hc|(Hc1 & Hc2 & Hc3)]; congruence).
  all: try (intros _; eexists; repeat (first [left; reflexivity | right]); fail).
  all: try (intros _; do 2 eexists; reflexivity).
Qed.

(** X15: the message handler never touches the connection: whatever the
    message, the websocket, [autoReconnect], the port and the handle of the
    ping interval are as before, no websocket is opened, closed or
    terminated, and no timer is started. *)
Theorem message_handler_leaves_connection_alone
    (decrypt : json -> string -> string -> option string ->
               option ReceivedEncryptedFrameContent)
    (construct : RemootioAction -> string -> string -> string -> EncryptedFrame)
    (w : World) (data : message_text) :
  let w' := exec (on_message decrypt construct data) w in
  same_connection (this w) (this w')
  /\ sendPingMessageIntervalHandle (this w') = sendPingMessageIntervalHandle (this w)
  /\ fresh w' = fresh w
  /\ (forall t, In t (timers w') -> In t (timers w))
  /\ exists evs,
       trace w' = (trace w ++ evs)%list
       /\ ~ In Close evs
       /\ ~ In Terminate evs
       /\ forall u, ~ In (NewWebSocket u) evs.
Proof.
  unfold same_connection. open_world w.
  destruct data as [text|frame]; cbv zeta; run_js;
    repeat (break_match; run_js).
  all: cbn [this timers fresh trace websocketClient autoReconnect port
            sendPingMessageIntervalHandle].
  all: (split; [repeat split|]).
  all: (split; [reflexivity|]); (split; [reflexivity|]).
  all: (split; [intros tm Hin; repeat apply In_remove_timer in Hin; exact Hin|]).
  all: split_trace; cbn [In].
  all: (split; [|split; [|intros u]]); intros H;
    repeat (destruct H as [H|H]; try discriminate H); contradiction.
Qed.

Lemma skipn_length_app (l evs : list effect) :
  skipn (List.length l) (l ++ evs) = evs.
Proof. induction l as [|e l IH]; [reflexivity|exact IH]. Qed.

Lemma authenticated_leaves_flag_off
    (decrypt : json -> string -> string -> option string ->
               option ReceivedEncryptedFrameContent)
    (construct : RemootioAction -> string -> string -> string -> EncryptedFrame)
    (w : World) (data : message_text) :
  let w' := exec (on_message decrypt construct data) w in
  In (Emit Event.authenticated) (emitted_since w w') ->
  waitingForAuthenticationQueryActionResponse (this w') = Some false.
Proof.
  unfold emitted_since. open_world w.
  destruct data as [text|frame]; cbv zeta; run_js;
    repeat (break_match; run_js).
  all: cbn [this trace waitingForAuthenticationQueryActionResponse].
  all: flatten_trace; rewrite ?skipn_length_app, ?skipn_all.
  all: cbn [In]; intros H; try reflexivity.
  all: repeat (destruct H as [H|H]; try discriminate H); contradiction.
Qed.

Lemma authenticated_needs_flag_or_challenge
    (decrypt : json -> string -> string -> option string ->
               option ReceivedEncryptedFrameContent)
    (construct : RemootioAction -> string -> string -> string -> EncryptedFrame)
    (w : World) (data : message_text) :
  let w' := exec (on_message decrypt construct data) w in
  waitingForAuthenticationQueryActionResponse (this w) <> Some true ->
  In (Emit Event.authenticated) (emitted_since w w') ->
  exists frame p c,
    data = Parses frame
    /\ decrypt frame (apiSecretKey (this w)) (apiAuthKey (this w))
         (apiSessionKey (this w)) = Some p
    /\ challenge p = Some c.
Proof.
  unfold emitted_since. open_world w.
  destruct data as [text|frame]; cbv zeta; run_js;
    repeat (break_match; run_js).
  all: cbn [this trace waitingForAuthenticationQueryActionResponse].
  all: flatten_trace; rewrite ?skipn_length_app, ?skipn_all.
  all: cbn [In]; intros Hflag H.
  all: try (repeat (destruct H as [H|H]; try discriminate H); contradiction).
  all: try (exfalso; apply Hflag; reflexivity).
  all: try (exists frame; do 2 eexists; repeat split; eassumption).
  all: match goal with
       | Hb : _ && false = true |- _ =>
           rewrite andb_false_r in Hb; discriminate Hb
       end.
Qed.

(** X16: ['authenticated'] is emitted once per challenge: when a message
    has raised it, the next message raises it again only if its payload
    carries a new challenge. *)
Theorem authenticated_once_per_challenge
    (decrypt : json -> string -> string -> option string ->
               option ReceivedEncryptedFrameContent)
    (construct : RemootioAction -> string -> string -> string -> EncryptedFrame)
    (w : World) (data1 data2 : message_text) :
  let w1 := exec (on_message decrypt construct data1) w in
  let w2 := exec (on_message decrypt construct data2) w1 in
  In (Emit Event.authenticated) (emitted_since w w1) ->
  In (Emit Event.authenticated) (emitted_since w1 w2) ->
  exists frame p c,
    data2 = Parses frame
    /\ decrypt frame (apiSecretKey (this w1)) (apiAuthKey (this w1))
         (apiSessionKey (this w1)) = Some p
    /\ challenge p = Some c.
Proof.
  intros w1 w2 Hfirst Hsecond. subst w2 w1.
  apply authenticated_leaves_flag_off in Hfirst.
  apply (authenticated_needs_flag_or_challenge decrypt construct _ data2);
    [|exact Hsecond].
  rewrite Hfirst. discriminate.
Qed.

(** Two messages in a row that each carry a challenge and a QUERY response:
    both raise ['authenticated']. *)
Lemma authenticated_once_per_challenge_witness :
  exists frame p c,
    Parses encrypted_frame = Parses frame
    /\ decrypts_to challenge_and_response frame "secret" "auth" (Some "fresh")
       = Some p
    /\ challenge p = Some c.
Proof.
  apply (@authenticated_once_per_challenge
           (decrypts_to challenge_and_response) construct_stub
           (session_world 6 (Some false) true)
           (Parses encrypted_frame) (Parses encrypted_frame)).
  - vm_compute. repeat (first [left; reflexivity | right]).
  - vm_compute. repeat (first [left; reflexivity | right]).
Defined.

(** ** Responses at the edges *)

(** X17: a response with a defined id that arrives while [lastActionId] is
    undefined leaves it undefined and prints a warning; the test for the
    QUERY of the handshake runs all the same, so ['authenticated'] is
    emitted when the type is QUERY and the flag is set. *)
Theorem response_without_counter_warns
    (decrypt : json -> string -> string -> option string ->
               option ReceivedEncryptedFrameContent)
    (construct : RemootioAction -> string -> string -> string -> EncryptedFrame)
    (w : World) (frame : json) (p : ReceivedEncryptedFrameContent)
    (r : Response) (rid : Z) :
  truthy frame && type_is frame "ENCRYPTED" = true ->
  decrypt frame (apiSecretKey (this w)) (apiAuthKey (this w))
    (apiSessionKey (this w)) = Some p ->
  challenge p = None ->
  response p = Some r ->
  response_id r = Some rid ->
  lastActionId (this w) = None ->
  let w' := exec (on_message decrypt construct (Parses frame)) w in
  let confirmed :=
    String.eqb (response_type r) "QUERY"
    && match waitingForAuthenticationQueryActionResponse (this w) with
       | Some true => true
       | _ => false
       end in
  lastActionId (this w') = None
  /\ trace w' =
     (trace w ++ disarm (this w)
      ++ [Emit (Event.incomingmessage frame (Some p));
          Warn "Unexpected error - lastActionId is undefined"]
      ++ (if confirmed then [Emit Event.authenticated] else []))%list.
Proof.
  intros Henc Hdec Hch Hresp Hid Hnone. unfold disarm. open_world w. run_js.
  destruct pingReplyTimeoutHandle0; run_js.
  all: rewrite (encrypted_frame_test _ _ Henc), Henc, Hdec, Hch, Hresp, Hid; run_js.
  all: destruct (String.eqb (response_type r) "QUERY");
    destruct waitingForAuthenticationQueryActionResponse0 as [[|]|].
  all: cbn; flatten_trace; repeat split.
Qed.

(** A QUERY response on an instance constructed and connected but never
    challenged. *)
Lemma response_without_counter_warns_witness :
  lastActionId
    (this (exec (on_message (decrypts_to (query_response 3)) construct_stub
                   (Parses encrypted_frame))
             probe_sent_world)) = None.
Proof.
  exact (proj1 (@response_without_counter_warns
                  (decrypts_to (query_response 3)) construct_stub
                  probe_sent_world encrypted_frame (query_response 3)
                  {| response_id := Some 3; response_type := "QUERY" |} 3
                  eq_refl eq_refl eq_refl eq_refl eq_refl eq_refl)).
Defined.

(** X18: a response that carries no id is passed to the listeners and
    otherwise ignored: the counter and the handshake flag stay as they are
    and ['authenticated'] is not emitted, even for a QUERY response that
    arrives while the flag is set. *)
Theorem response_without_id_is_ignored
    (decrypt : json -> string -> string -> option string ->
               option ReceivedEncryptedFrameContent)
    (construct : RemootioAction -> string -> string -> string -> EncryptedFrame)
    (w : World) (frame : json) (p : ReceivedEncryptedFrameContent)
    (r : Response) :
  truthy frame && type_is frame "ENCRYPTED" = true ->
  decrypt frame (apiSecretKey (this w)) (apiAuthKey (this w))
    (apiSessionKey (this w)) = Some p ->
  challenge p = None ->
  response p = Some r ->
  response_id r = None ->
  let w' := exec (on_message decrypt construct (Parses frame)) w in
  same_session (this w) (this w')
  /\ trace w' =
     (trace w ++ disarm (this w)
      ++ [Emit (Event.incomingmessage frame (Some p))])%list.
Proof.
  intros Henc Hdec Hch Hresp Hid. unfold disarm, same_session.
  open_world w. run_js.
  destruct pingReplyTimeoutHandle0; run_js.
  all: rewrite (encrypted_frame_test _ _ Henc), Henc, Hdec, Hch, Hresp, Hid; run_js.
  all: cbn; flatten_trace; repeat split.
Qed.

(** A QUERY response without id while the flag is set: the flag stays set. *)
Lemma response_without_id_is_ignored_witness :
  same_session
    (this (session_world 6 (Some true) true))
    (this (exec (on_message
                   (decrypts_to
                      {| challenge := None;
                         response := Some {| response_id := None;
                                             response_type := "QUERY" |} |})
                   construct_stub (Parses encrypted_frame))
             (session_world 6 (Some true) true))).
Proof.
  exact (proj1 (@response_without_id_is_ignored
                  (decrypts_to
                     {| challenge := None;
                        response := Some {| response_id := None;
                                            response_type := "QUERY" |} |})
                  construct_stub (session_world 6 (Some true) true)
                  encrypted_frame _ _ eq_refl eq_refl eq_refl eq_refl eq_refl)).
Defined.

(** ** The ping interval *)

(** X19: a tick of the ping interval does nothing at all while the
    websocket is not open: no PING, no watchdog. On an open websocket it
    arms one watchdog with the reply timeout, remembers its handle and
    writes the PING frame. *)
Theorem ping_tick_probes_open_socket_only (w : World) (h : handle) :
  live_timer h (timers w) = Some Interval ->
  fire h w =
    if is_open (this w)
    then Returned tt
           {| this := set_pingReplyTimeoutHandle (Some (fresh w)) (this w);
              timers := timers w ++ [(fresh w, Timeout)];
              fresh := S (fresh w);
              trace := trace w
                       ++ [SetTimeout (fresh w) (pingReplyTimeoutXMs (this w));
                           Send (PlainFrame "PING");
                           Emit (Event.outgoingmessage (PlainFrame "PING") None)] |}
    else Returned tt w.
Proof.
  intros Hlive. open_world w. run_js. rewrite Hlive.
  destruct websocketClient0 as [ws|]; [|reflexivity].
  destruct (ReadyState_eqb (readyState ws) OPEN) eqn:Hopen; [|reflexivity].
  run_js. rewrite Hopen. flatten_trace. reflexivity.
Qed.

(** The interval of a websocket that is closing ticks: nothing happens. *)
Lemma ping_tick_probes_open_socket_only_witness :
  fire 0%nat (exec (transport_becomes CLOSING) probe_sent_world)
  = Returned tt (exec (transport_becomes CLOSING) probe_sent_world).
Proof.
  exact (@ping_tick_probes_open_socket_only
           (exec (transport_becomes CLOSING) probe_sent_world) 0%nat eq_refl).
Defined.

(** X20: the instance keeps the handle of one ping interval only. When two
    websockets open before either closes (two calls of [connect]), the
    second open overwrites the handle of the first interval; the close
    handler clears the second, and the first stays live with no handle left
    to clear it. *)
Theorem second_open_leaks_first_interval
    (decrypt : json -> string -> string -> option string ->
               option ReceivedEncryptedFrameContent)
    (construct : RemootioAction -> string -> string -> string -> EncryptedFrame)
    (w : World) :
  reachable decrypt construct w ->
  let w' := exec (on_open ;; on_open ;; on_close) w in
  timers w' = (timers w ++ [(fresh w, Interval)])%list
  /\ live_timer (fresh w) (timers w') = Some Interval
  /\ sendPingMessageIntervalHandle (this w') = None.
Proof.
  intros Hr. apply reachable_handles_given_out in Hr.
  unfold handles_given_out in Hr. open_world w. run_all.
  cbn [timers fresh] in Hr.
  assert (Hgiven : forall t, In t (timers0 ++ [(fresh0, Interval)])%list ->
                             (fst t < S fresh0)%nat).
  { intros t Hin. apply in_app_or in Hin.
    destruct Hin as [Hin|[<-|[]]]; [apply Hr in Hin; lia|cbn; lia]. }
  assert (Hlive : live_timer fresh0 (timers0 ++ [(fresh0, Interval)])%list
                  = Some Interval).
  { clear Hgiven. induction timers0 as [|[g k] l IH]; cbn.
    - rewrite Nat.eqb_refl. reflexivity.
    - assert (Hg : (g < fresh0)%nat) by (apply (Hr (g, k)); now left).
      destruct (Nat.eqb_spec g fresh0) as [->|_]; [lia|].
      apply IH. intros t Hin. apply Hr. now right. }
  destruct autoReconnect0; run_all; try destruct (port0 =? 0); cbn.
  all: rewrite (remove_given_out_handle _ Interval Hgiven).
  all: repeat split; exact Hlive.
Qed.

(** [connect] twice on a fresh instance, both websockets open, one closes:
    timer 0 is still live. *)
Lemma second_open_leaks_first_interval_witness :
  let w := exec (call construct_stub (Connect false 8080))
             (exec (call construct_stub (Connect false 8080))
                (new_RemootioDevice "192.168.1.155" "secret" "auth" None)) in
  timers (exec (on_open ;; on_open ;; on_close) w)
  = (timers w ++ [(fresh w, Interval)])%list
  /\ live_timer (fresh w) (timers (exec (on_open ;; on_open ;; on_close) w))
     = Some Interval
  /\ sendPingMessageIntervalHandle
       (this (exec (on_open ;; on_open ;; on_close) w)) = None.
Proof.
  exact (@second_open_leaks_first_interval
           (decrypts_to (query_response 3)) construct_stub _
           (reachable_step
              (reachable_step
                 (reachable_new (decrypts_to (query_response 3)) construct_stub
                    "192.168.1.155" "secret" "auth" None)
                 (step_call _ construct_stub (Connect false 8080) _))
              (step_call _ construct_stub (Connect false 8080) _))).
Defined.
